(** * sensors.AFRICA API v2: time-windowed aggregation and fleet status

    A shallow embedding of [sensorsafrica/api/v2/views.py] and of the
    properties its specification states about it.

    Conventions of the embedding:
    - texts are [string]s, i.e. sequences of 8-bit characters; inside the
      matchers they are handled as [list ascii];
    - a point in time is an integer number of microseconds counted from
      midnight of proleptic-Gregorian ordinal day 0, always in UTC (this is
      the quantity Python's [datetime] arithmetic works on);
    - Python exceptions are values of [exn]; a computation that may raise
      returns an [outcome];
    - the database is a record of tables together with a log of the queries
      that were executed. *)

From Stdlib Require Import ZArith QArith Ascii String List Lia Bool.
From stdpp Require Import base option list strings gmap.

Set Default Proof Using "Type".

(** ** Characters *)

Definition code (c : ascii) : Z := Z.of_N (N_of_ascii c).

(** [\d] of the regular expressions and [0-9] of the date patterns. *)
Definition is_digit (c : ascii) : bool :=
  ((48 <=? code c) && (code c <=? 57))%Z.

Definition digit_value (c : ascii) : Z := (code c - 48)%Z.

(** One or more digits. *)
Definition digits1 (w : list ascii) : Prop :=
  w ≠ [] ∧ Forall (λ c, is_digit c = true) w.

(** ** Regular expressions of the [~] operator *)

Module Regex.

Inductive re : Type :=
| Void
| Eps
| Chr (c : ascii)
| Digit
| Seq (r1 r2 : re)
| Alt (r1 r2 : re)
| Opt (r : re)
| Plus (r : re)
| Star (r : re).

(** Denotation: the set of words of a regular expression. *)
Inductive star (L : list ascii → Prop) : list ascii → Prop :=
| star_nil : star L []
| star_app u v : L u → star L v → star L (u ++ v).

Fixpoint lang (r : re) (w : list ascii) : Prop :=
  match r with
  | Void => False
  | Eps => w = []
  | Chr c => w = [c]
  | Digit => ∃ c, w = [c] ∧ is_digit c = true
  | Seq r1 r2 => ∃ u v, w = u ++ v ∧ lang r1 u ∧ lang r2 v
  | Alt r1 r2 => lang r1 w ∨ lang r2 w
  | Opt r1 => w = [] ∨ lang r1 w
  | Plus r1 => ∃ u v, w = u ++ v ∧ lang r1 u ∧ star (lang r1) v
  | Star r1 => star (lang r1) w
  end.

(** The matcher: Brzozowski derivatives. *)
Fixpoint nullable (r : re) : bool :=
  match r with
  | Void => false
  | Eps => true
  | Chr _ => false
  | Digit => false
  | Seq r1 r2 => nullable r1 && nullable r2
  | Alt r1 r2 => nullable r1 || nullable r2
  | Opt _ => true
  | Plus r1 => nullable r1
  | Star _ => true
  end.

Fixpoint deriv (a : ascii) (r : re) : re :=
  match r with
  | Void => Void
  | Eps => Void
  | Chr c => if Ascii.eqb a c then Eps else Void
  | Digit => if is_digit a then Eps else Void
  | Seq r1 r2 =>
      if nullable r1
      then Alt (Seq (deriv a r1) r2) (deriv a r2)
      else Seq (deriv a r1) r2
  | Alt r1 r2 => Alt (deriv a r1) (deriv a r2)
  | Opt r1 => deriv a r1
  | Plus r1 => Seq (deriv a r1) (Star r1)
  | Star r1 => Seq (deriv a r1) (Star r1)
  end.

Fixpoint matches (r : re) (w : list ascii) : bool :=
  match w with
  | [] => nullable r
  | a :: w' => matches (deriv a r) w'
  end.

(** [text ~ '^r$']: the two anchors tie the match to the whole text. *)
Definition regex_match (r : re) (text : string) : bool :=
  matches r (list_ascii_of_string text).

End Regex.

(** ** The numeric value filter *)

Import Regex.

(** [v.value ~ '^\\-?\\d+(\\.?\\d+)?$'] of the statistics query; the Python
    literal is not raw, so the pattern the database sees is
    [^\-?\d+(\.?\d+)?$]. *)
Definition stat_value_pattern : re :=
  Seq (Opt (Chr "-"))
      (Seq (Plus Digit) (Opt (Seq (Opt (Chr ".")) (Plus Digit)))).

(** [Q(value__regex=r"^\-?\d+(\.?\d+)?$")] of the fleet status query. *)
Definition fleet_value_pattern : re :=
  Seq (Opt (Chr "-"))
      (Seq (Plus Digit) (Opt (Seq (Opt (Chr ".")) (Plus Digit)))).

(** The specification's expression [^-?\d+(\.\d+)?$]. *)
Definition spec_value_pattern : re :=
  Seq (Opt (Chr "-"))
      (Seq (Plus Digit) (Opt (Seq (Chr ".") (Plus Digit)))).

Definition is_valid_numeric (text : string) : bool :=
  regex_match stat_value_pattern text.

Definition fleet_is_valid_numeric (text : string) : bool :=
  regex_match fleet_value_pattern text.

(** The specification's words: an optional leading [-], one or more digits,
    optionally a [.] followed by one or more digits. *)
Definition signed_decimal (w : list ascii) : Prop :=
  ∃ sign int frac,
    w = sign ++ int ++ frac ∧
    (sign = [] ∨ sign = ["-"%char]) ∧
    digits1 int ∧
    (frac = [] ∨ ∃ f, frac = "."%char :: f ∧ digits1 f).

(** ** Exceptions and outcomes *)

(** The exceptions the views can raise.  [ValidationError] carries the
    one-entry dictionary the view passes to it; [NotFound] is the framework's
    404 exception. *)
Inductive exn : Type :=
| ValidationError (field message : string)
| NotFound
| KeyError (key : string)
| ValueError
| OverflowError
| AttributeError
| ProgrammingError
| DataError
| DoesNotExist
| MultipleObjectsReturned.

Inductive outcome (A : Type) : Type :=
| Ok (a : A)
| Raise (e : exn).
Arguments Ok {A} a.
Arguments Raise {A} e.

Definition outcome_bind {A B} (f : A → outcome B) (m : outcome A) : outcome B :=
  match m with
  | Ok a => f a
  | Raise e => Raise e
  end.

#[global] Instance outcome_ret : MRet outcome := λ A a, Ok a.
#[global] Instance outcome_mbind : MBind outcome := λ A B f m, outcome_bind f m.

(** The status the REST framework answers with: its exception handler turns
    [ValidationError] into 400 and [NotFound] into 404; any other exception
    is not handled and becomes a server error. *)
Definition http_status {A} (o : outcome A) : Z :=
  match o with
  | Ok _ => 200
  | Raise (ValidationError _ _) => 400
  | Raise NotFound => 404
  | Raise _ => 500
  end%Z.

(** Truth value of a query parameter: [None] and the empty text are false. *)
Definition truthy (p : option string) : bool :=
  match p with
  | None => false
  | Some s => negb (String.eqb s "")
  end.

(** ** Calendar arithmetic of [datetime] *)

Module Calendar.
Local Open Scope Z_scope.

Definition MINYEAR : Z := 1.
Definition MAXYEAR : Z := 9999.
Definition MAXORDINAL : Z := 3652059.

Definition is_leap (year : Z) : bool :=
  (year mod 4 =? 0) && (negb (year mod 100 =? 0) || (year mod 400 =? 0)).

Definition days_before_year (year : Z) : Z :=
  let y := year - 1 in
  y * 365 + y / 4 - y / 100 + y / 400.

Definition DAYS_IN_MONTH (month : Z) : Z :=
  match month with
  | 1 => 31 | 2 => 28 | 3 => 31 | 4 => 30 | 5 => 31 | 6 => 30
  | 7 => 31 | 8 => 31 | 9 => 30 | 10 => 31 | 11 => 30 | 12 => 31
  | _ => -1
  end.

Definition days_in_month (year month : Z) : Z :=
  if (month =? 2) && is_leap year then 29 else DAYS_IN_MONTH month.

Definition DAYS_BEFORE_MONTH (month : Z) : Z :=
  match month with
  | 1 => 0 | 2 => 31 | 3 => 59 | 4 => 90 | 5 => 120 | 6 => 151
  | 7 => 181 | 8 => 212 | 9 => 243 | 10 => 273 | 11 => 304 | 12 => 334
  | _ => -1
  end.

Definition days_before_month (year month : Z) : Z :=
  DAYS_BEFORE_MONTH month + (if (2 <? month) && is_leap year then 1 else 0).

Definition ymd2ord (year month day : Z) : Z :=
  days_before_year year + days_before_month year month + day.

(** The check of the [date] constructor. *)
Definition check_date_fields (year month day : Z) : bool :=
  (MINYEAR <=? year) && (year <=? MAXYEAR) &&
  (1 <=? month) && (month <=? 12) &&
  (1 <=? day) && (day <=? days_in_month year month).

(** Microseconds in a day, and [timedelta(hours=h)], [timedelta(minutes=m)]. *)
Definition DAY : Z := 86400000000.
Definition hours (h : Z) : Z := h * 3600000000.
Definition minutes (m : Z) : Z := m * 60000000.

(** [datetime(year, month, day, hour, minute, second)] in UTC. *)
Definition datetime (year month day hour minute second : Z) : Z :=
  ymd2ord year month day * DAY + hours hour + minutes minute + second * 1000000.

Definition toordinal (t : Z) : Z := t / DAY.

(** [t + delta]: the result must stay between year 1 and year 9999. *)
Definition datetime_add (t delta : Z) : outcome Z :=
  let r := t + delta in
  if (0 <? toordinal r) && (toordinal r <=? MAXORDINAL)
  then Ok r
  else Raise OverflowError.

Definition datetime_sub (t delta : Z) : outcome Z := datetime_add t (- delta).

(** [t.replace(hour=0, minute=0, second=0, microsecond=0)]. *)
Definition replace_midnight (t : Z) : Z := t - t mod DAY.

End Calendar.

(** ** [datetime.strptime(text, "%Y-%m-%d")] *)

Module Strptime.
Import Calendar.
Local Open Scope Z_scope.

(** A backtracking matcher lists every way to match a prefix of a word, in
    the order the engine tries them: the text matched and the rest. *)
Definition matcher : Type := list ascii → list (list ascii * list ascii).

(** A character with its code between [lo] and [hi]. *)
Definition in_range (lo hi : Z) (c : ascii) : bool :=
  (lo <=? code c) && (code c <=? hi).

Definition one (p : ascii → bool) : matcher := λ w,
  match w with
  | c :: rest => if p c then [([c], rest)] else []
  | [] => []
  end.

Definition then_ (m1 m2 : matcher) : matcher := λ w,
  '(a, r1) ← m1 w; '(b, r2) ← m2 r1; [(a ++ b, r2)].

Definition or_ (m1 m2 : matcher) : matcher := λ w, m1 w ++ m2 w.

Definition lit (a : ascii) : matcher := one (Ascii.eqb a).
Definition d09 : matcher := one (in_range 48 57).
Definition d19 : matcher := one (in_range 49 57).

(** [%Y] is [(?P<Y>\d\d\d\d)]. *)
Definition group_Y : matcher := then_ d09 (then_ d09 (then_ d09 d09)).

(** [%m] is [(?P<m>1[0-2]|0[1-9]|[1-9])]. *)
Definition group_m : matcher :=
  or_ (then_ (lit "1") (one (in_range 48 50)))
      (or_ (then_ (lit "0") d19) d19).

(** [%d] is [(?P<d>3[0-1]|[1-2]\d|0[1-9]|[1-9]| [1-9])]. *)
Definition group_d : matcher :=
  or_ (then_ (lit "3") (one (in_range 48 49)))
      (or_ (then_ (one (in_range 49 50)) d09)
           (or_ (then_ (lit "0") d19)
                (or_ d19 (then_ (lit " ") d19)))).

(** The compiled format: the three groups with their separators.  A result
    is the texts of the groups and what is left of the word. *)
Definition format_regex (w : list ascii)
  : list (list ascii * list ascii * list ascii * list ascii) :=
  '(y, r1) ← group_Y w;
  '(_, r2) ← lit "-" r1;
  '(m, r3) ← group_m r2;
  '(_, r4) ← lit "-" r3;
  '(d, r5) ← group_d r4;
  [(y, m, d, r5)].

(** [int] of a group: the value of its digits; the blank a day may start
    with is skipped. *)
Definition int (w : list ascii) : Z :=
  fold_left (λ acc c, if is_digit c then 10 * acc + digit_value c else acc) w 0.

(** The first match counts; text left over, or fields that are no date,
    raise [ValueError].  The result is midnight of the day. *)
Definition strptime (date_text : string) : outcome Z :=
  match head (format_regex (list_ascii_of_string date_text)) with
  | None => Raise ValueError
  | Some (y, m, d, rest) =>
      if bool_decide (rest = []) then
        if check_date_fields (int y) (int m) (int d)
        then Ok (datetime (int y) (int m) (int d) 0 0 0)
        else Raise ValueError
      else Raise ValueError
  end.

(** What the matcher accepts, in words: a year of four digits; a month
    [1]..[9], [01]..[09] or [10]..[12]; a day [1]..[9], [01]..[09],
    [10]..[29], [30], [31], or a blank and [1]..[9]. *)
Definition year_text (y : list ascii) : Prop :=
  length y = 4%nat ∧ Forall (λ c, is_digit c = true) y.

Definition month_text (m : list ascii) : Prop :=
  (∃ c, m = [c] ∧ in_range 49 57 c = true) ∨
  (∃ c, m = ["0"%char; c] ∧ in_range 49 57 c = true) ∨
  (∃ c, m = ["1"%char; c] ∧ in_range 48 50 c = true).

Definition day_text (d : list ascii) : Prop :=
  (∃ c, d = [c] ∧ in_range 49 57 c = true) ∨
  (∃ c, d = ["0"%char; c] ∧ in_range 49 57 c = true) ∨
  (∃ a c, d = [a; c] ∧ in_range 49 50 a = true ∧ in_range 48 57 c = true) ∨
  (∃ c, d = ["3"%char; c] ∧ in_range 48 49 c = true) ∨
  (∃ c, d = [" "%char; c] ∧ in_range 49 57 c = true).

Definition date_text (w : list ascii) : Prop :=
  ∃ y m d,
    w = y ++ "-"%char :: m ++ "-"%char :: d ∧
    year_text y ∧ month_text m ∧ day_text d ∧
    check_date_fields (int y) (int m) (int d) = true.


End Strptime.

(** ** Helpers of the view *)

Import Calendar Strptime.

Definition beginning_of_today (now : Z) : Z := replace_midnight now.

Definition end_of_today (now : Z) : outcome Z :=
  datetime_add (beginning_of_today now) (hours 24).

Definition beginning_of_day (from_date : string) : outcome Z :=
  strptime from_date.

Definition end_of_day (to_date : string) : outcome Z :=
  t ← beginning_of_day to_date; datetime_add t (hours 24).

Definition validate_date (date_text : string) (error : string * string)
  : outcome unit :=
  match strptime date_text with
  | Ok _ => Ok ()
  | Raise ValueError => Raise (ValidationError error.1 error.2)
  | Raise e => Raise e
  end.

(** ** Text operations *)

(** [str.upper()] on the letters [a]..[z]; every other character of the
    8-bit alphabet is left as it is. *)
Definition upper_char (c : ascii) : ascii :=
  if in_range 97 122 c then ascii_of_N (N_of_ascii c - 32) else c.

Fixpoint upper (s : string) : string :=
  match s with
  | EmptyString => EmptyString
  | String c s' => String (upper_char c) (upper s')
  end.

(** [s.split(sep)] for a one-character separator. *)
Fixpoint split (sep : ascii) (s : string) : list string :=
  match s with
  | EmptyString => [EmptyString]
  | String c s' =>
      if Ascii.eqb c sep then EmptyString :: split sep s'
      else match split sep s' with
           | h :: t => String c h :: t
           | [] => [String c EmptyString]
           end
  end.

(** ** The request and its preparation *)

(** [value_types = {"air": ["P1", "P2", "humidity", "temperature"]}] *)
Definition value_types : gmap string (list string) :=
  {[ "air" := ["P1"; "P2"; "humidity"; "temperature"] ]}.

(** The choices of the stored [value_type] column (migration 0017). *)
Definition stored_value_types : list string :=
  ["P1"; "P2"; "durP1"; "durP2"; "ratioP1"; "ratioP2"; "samples";
   "min_micro"; "max_micro"; "temperature"; "humidity"; "pressure";
   "altitude"; "pressure_sealevel"; "brightness"; "dust_density";
   "vo_raw"; "voltage"; "P10"; "P25"; "durP10"; "durP25"; "ratioP10";
   "ratioP25"; "door_state"].

(** The path parameter and the query parameters of a statistics request;
    a query parameter that is not given is [None]. *)
Record request : Type := {
  sensor_type : string;
  city : option string;
  from : option string;
  to : option string;
  avg : option string;
  value_type : option string;
}.

(** The text of a parameter known to be true. *)
Definition text (p : option string) : string := default "" p.

(** The parameters handed to [cursor.execute]. *)
Record sql_params : Type := {
  filter_value_types : list string;
  city_names : list string;
  from_date : Z;
  to_date : Z;
  trunc : string;
}.

(** Lines 119-127: [to] needs [from]; each given date must parse. *)
Definition check_dates (from_date to_date : option string) : outcome unit :=
  _ ← (if truthy to_date && negb (truthy from_date)
       then Raise (ValidationError "from" "Must be provide along with to query")
       else Ok ());
  _ ← (if truthy from_date
       then validate_date (text from_date)
              ("from", "Must be a date in the format Y-m-d.")
       else Ok ());
  if truthy to_date
  then validate_date (text to_date)
         ("to", "Must be a date in the format Y-m-d.")
  else Ok ().

(** Lines 129-136: the tags to filter on, as the tuple later given to the
    query.  Without a [value_type] parameter these are the configured tags
    themselves; with one, two Python sets are intersected. *)
Definition select_value_types (sensor_type : string)
    (value_type_to_filter : option string) : outcome (list string) :=
  match value_types !! sensor_type with
  | None => Raise (KeyError sensor_type)
  | Some allowed =>
      if truthy value_type_to_filter
      then
        let asked : gset string :=
          list_to_set (split "," (upper (text value_type_to_filter))) in
        let known : gset string := list_to_set (upper <$> allowed) in
        Ok (elements (asked ∩ known))
      else Ok allowed
  end.

(** Lines 138-148: the window [(from_date, to_date)]. *)
Definition resolve_window (from_date to_date : option string) (now : Z)
  : outcome (Z * Z) :=
  if negb (truthy from_date) && negb (truthy to_date) then
    let to_date := now in
    from_date ← datetime_sub to_date (hours 24);
    Ok (from_date, to_date)
  else if negb (truthy to_date) then
    from_date ← beginning_of_day (text from_date);
    Ok (from_date, beginning_of_today now)
  else
    from_date ← beginning_of_day (text from_date);
    to_date ← end_of_day (text to_date);
    Ok (from_date, to_date).

(** The time window resolver of the specification: the date checks followed
    by the window. *)
Definition resolve (from_str to_str : option string) (now : Z)
  : outcome (Z * Z) :=
  _ ← check_dates from_str to_str;
  resolve_window from_str to_str now.

(** Lines 112-150 of [get_queryset]: everything before the query. *)
Definition prepare (rq : request) (now : Z) : outcome sql_params :=
  let avg := default "day" (avg rq) in
  _ ← check_dates (from rq) (to rq);
  filter_value_types ← select_value_types (sensor_type rq) (value_type rq);
  '(from_date, to_date) ← resolve_window (from rq) (to rq) now;
  let city_names := if truthy (city rq) then split "," (text (city rq)) else [] in
  Ok {| filter_value_types := filter_value_types;
        city_names := city_names;
        from_date := from_date;
        to_date := to_date;
        trunc := avg |}.

(** ** The database *)

(** What the queries need of double precision numbers.  [cast_float] is
    [CAST(text AS float)], which fails on a text out of range;
    [fdiv_count] divides by a row count. *)
Class FloatOps (F : Type) : Type := {
  cast_float : string → option F;
  fadd : F → F → F;
  fdiv_count : F → nat → F;
  fmin : F → F → F;
  fmax : F → F → F;
}.

(** A row of [sensors_sensordatavalue] joined with its [sensors_sensordata]
    row and that row's [sensors_sensorlocation]. *)
Record Reading : Type := {
  r_value_type : string;
  r_value : string;
  r_timestamp : Z;
  r_sensor : Z;
  r_node : Z;
  r_location : Z;
  r_city : string;
}.

(** An SQL aggregate over the rows of a group: [NULL] on no rows. *)
Definition aggregate {A} (op : A → A → A) (l : list A) : option A :=
  match l with
  | [] => None
  | x :: l' => Some (fold_left op l' x)
  end.

(** [GROUP BY]: one group per distinct key, holding the rows with that
    key in their order. *)
Definition group_by {K A} `{EqDecision K} (key : A → K) (l : list A)
  : list (K * list A) :=
  (λ k, (k, filter (λ x, key x = k) l)) <$> remove_dups (key <$> l).

(** ** The statistics query *)

Section StatQuery.
Context {F : Type} `{FloatOps F}.
(** PostgreSQL's [DATE_TRUNC(unit, timestamp)]; [None] when it rejects the
    unit. *)
Variable date_trunc : string → Z → option Z.

(** A row that passed [WHERE], with its time bucket and its value cast. *)
Record Sample : Type := {
  s_bucket : Z;
  s_reading : Reading;
  s_value : F;
}.

(** A row of the result.  [time_bucket] and [sample_count] are the
    [DATE_TRUNC] of the group and the [COUNT( * )] the average divides by;
    [debug] is the [STRING_AGG] column before it is rendered as text. *)
Record AggregateBucket : Type := {
  city_name : string;
  start_datetime : option Z;
  end_datetime : option Z;
  average : option F;
  minimum : option F;
  maximum : option F;
  bucket_value_type : string;
  debug : list (string * Z);
  time_bucket : Z;
  sample_count : nat;
}.

(** The [WHERE] clause. *)
Definition stat_where (p : sql_params) (r : Reading) : bool :=
  bool_decide (r_value_type r ∈ filter_value_types p)
  && is_valid_numeric (r_value r)
  && (if (0 <? length (city_names p))%nat
      then bool_decide (r_city r ∈ city_names p) else true)
  && (from_date p <=? r_timestamp r)%Z
  && (r_timestamp r <=? to_date p)%Z.

Definition sample_of (unit : string) (r : Reading) : option Sample :=
  b ← date_trunc unit (r_timestamp r);
  x ← cast_float (r_value r);
  Some {| s_bucket := b; s_reading := r; s_value := x |}.

Definition stat_group_key (s : Sample) : Z * string * string :=
  (s_bucket s, r_value_type (s_reading s), r_city (s_reading s)).

Definition bucket_of (g : (Z * string * string) * list Sample)
  : AggregateBucket :=
  let '((b, vt, c), rows) := g in
  let stamps := (λ s, r_timestamp (s_reading s)) <$> rows in
  let values := s_value <$> rows in
  {| city_name := c;
     start_datetime := aggregate Z.min stamps;
     end_datetime := aggregate Z.max stamps;
     average := (λ s, fdiv_count s (length rows)) <$> aggregate fadd values;
     minimum := aggregate fmin values;
     maximum := aggregate fmax values;
     bucket_value_type := vt;
     debug := (λ s, (r_value (s_reading s), r_timestamp (s_reading s))) <$> rows;
     time_bucket := b;
     sample_count := length rows |}.

(** The query of lines 153-187.  An empty tuple after [IN] is a syntax
    error; a rejected unit or a cast out of range fails the query. *)
Definition stat_query (p : sql_params) (table : list Reading)
  : outcome (list AggregateBucket) :=
  if bool_decide (filter_value_types p = []) then Raise ProgrammingError
  else
    match mapM (sample_of (trunc p)) (filter (λ r, stat_where p r = true) table) with
    | None => Raise DataError
    | Some samples => Ok (bucket_of <$> group_by stat_group_key samples)
    end.

(** The state a request runs in: the clock, the table, and the parameters
    of every query executed so far. *)
Record world : Type := {
  now : Z;
  readings : list Reading;
  executed : list sql_params;
}.

Definition cursor_execute (p : sql_params) (w : world)
  : outcome (list AggregateBucket) * world :=
  (stat_query p (readings w),
   {| now := now w; readings := readings w; executed := executed w ++ [p] |}).

(** [SensorDataStatView.get_queryset] *)
Definition get_queryset (rq : request) (w : world)
  : outcome (list AggregateBucket) * world :=
  match prepare rq (now w) with
  | Raise e => (Raise e, w)
  | Ok p => cursor_execute p w
  end.

End StatQuery.

(** ** The fleet status view *)

Record Location : Type := {
  loc_id : Z;
  loc_location : string;
  loc_longitude : string;
  loc_latitude : string;
  loc_city : string;
}.

(** A node with its current location and the ids of its sensors. *)
Record Node : Type := {
  node_id : Z;
  node_uid : string;
  node_location : Location;
  node_sensors : list Z;
}.

(** A row of [LastActiveNodes] with the node and the location it points
    to. *)
Record LastActive : Type := {
  la_node_id : Z;
  la_node_uid : string;
  la_location : Location;
  last_data_received_at : option Z;
}.

Record database : Type := {
  db_readings : list Reading;
  db_nodes : list Node;
  db_last_active : list LastActive;
}.

(** [QuerySet.get()] *)
Definition queryset_get {A} (rows : list A) : outcome A :=
  match rows with
  | [] => Raise DoesNotExist
  | [x] => Ok x
  | _ => Raise MultipleObjectsReturned
  end.

Section Fleet.
Context {F : Type} `{FloatOps F}.
(** [django.utils.text.slugify] *)
Variable slugify : string → string.

Record CityRef : Type := { city_ref_name : string; city_ref_slug : string }.

Record Place : Type := {
  place_name : string;
  place_longitude : string;
  place_latitude : string;
  place_city : CityRef;
}.

(** A row of the trailing statistics of a node. *)
Record NodeStat : Type := {
  ns_value_type : string;
  ns_sensor_id : Z;
  ns_start_datetime : option Z;
  ns_end_datetime : option Z;
  ns_average : option F;
  ns_minimum : option F;
  ns_maximum : option F;
}.

(** An element of the answer; [S] is the type of its [stats]. *)
Record NodeStatus (S : Type) : Type := {
  node_moved : bool;
  moved_to : option Place;
  status_node_uid : string;
  status_node_id : Z;
  status_location : Place;
  status_last_data_received_at : option Z;
  stats : S;
}.

Definition place_of (l : Location) : Place :=
  {| place_name := loc_location l;
     place_longitude := loc_longitude l;
     place_latitude := loc_latitude l;
     place_city := {| city_ref_name := loc_city l;
                      city_ref_slug := slugify (loc_city l) |} |}.

(** The filter of lines 222-231. *)
Definition fleet_where (la : LastActive) (last : Z) (r : Reading) : bool :=
  bool_decide (r_node r = la_node_id la)
  && bool_decide (r_location r = loc_id (la_location la))
  && (last - minutes 5 <=? r_timestamp r)%Z
  && (r_timestamp r <=? last)%Z
  && negb (String.eqb (r_value_type r) "timestamp")
  && fleet_is_valid_numeric (r_value r).

Definition fleet_sample (r : Reading) : option (Reading * F) :=
  x ← cast_float (r_value r); Some (r, x).

Definition node_stat_of (g : (string * Z) * list (Reading * F)) : NodeStat :=
  let '((vt, sensor), rows) := g in
  let stamps := (λ s, r_timestamp s.1) <$> rows in
  let values := snd <$> rows in
  {| ns_value_type := vt;
     ns_sensor_id := sensor;
     ns_start_datetime := aggregate Z.min stamps;
     ns_end_datetime := aggregate Z.max stamps;
     ns_average := (λ s, fdiv_count s (length rows)) <$> aggregate fadd values;
     ns_minimum := aggregate fmin values;
     ns_maximum := aggregate fmax values |}.

(** The statistics of lines 221-242: grouped by the value type and by the
    annotated sensor id. *)
Definition fleet_stats (db : database) (la : LastActive) (last : Z)
  : outcome (list NodeStat) :=
  match mapM fleet_sample
          (filter (λ r, fleet_where la last r = true) (db_readings db)) with
  | None => Raise DataError
  | Some samples =>
      Ok (node_stat_of <$>
            group_by (λ s, (r_value_type s.1, r_sensor s.1)) samples)
  end.

(** [Node.objects.filter(Q(id=...), ~Q(sensors=None)).get()] *)
Definition current_node (db : database) (la : LastActive) : outcome Node :=
  queryset_get
    (filter (λ n, node_id n = la_node_id la ∧ node_sensors n ≠ []) (db_nodes db)).

(** The body of the loop for one snapshot.  The statistics are a query set
    that is evaluated only when the answer is rendered, so the element
    carries the outcome of that evaluation. *)
Definition node_status (db : database) (la : LastActive)
  : outcome (NodeStatus (outcome (list NodeStat))) :=
  node ← current_node db la;
  let stats :=
    match last_data_received_at la with
    | Some last => fleet_stats db la last
    | None => Ok []
    end in
  let moved_to :=
    if bool_decide (loc_id (la_location la) ≠ loc_id (node_location node))
    then Some (place_of (node_location node))
    else None in
  Ok {| node_moved := match moved_to with Some _ => true | None => false end;
        moved_to := moved_to;
        status_node_uid := la_node_uid la;
        status_node_id := la_node_id la;
        status_location := place_of (la_location la);
        status_last_data_received_at := last_data_received_at la;
        stats := stats |}.

(** The loop of [NodesView.list] over the snapshots still to visit;
    [nodes] is the list built so far. *)
Fixpoint list_loop (db : database) (snapshots : list LastActive)
    (nodes : list (NodeStatus (outcome (list NodeStat))))
  : outcome (list (NodeStatus (outcome (list NodeStat)))) :=
  match snapshots with
  | [] => Ok nodes
  | la :: rest =>
      st ← node_status db la;
      list_loop db rest (nodes ++ [st])
  end.

(** Rendering evaluates the statistics of each element in turn. *)
Definition render_status (st : NodeStatus (outcome (list NodeStat)))
  : outcome (NodeStatus (list NodeStat)) :=
  s ← stats _ st;
  Ok {| node_moved := node_moved _ st;
        moved_to := moved_to _ st;
        status_node_uid := status_node_uid _ st;
        status_node_id := status_node_id _ st;
        status_location := status_location _ st;
        status_last_data_received_at := status_last_data_received_at _ st;
        stats := s |}.

Fixpoint render (l : list (NodeStatus (outcome (list NodeStat))))
  : outcome (list (NodeStatus (list NodeStat))) :=
  match l with
  | [] => Ok []
  | st :: l' =>
      r ← render_status st;
      rs ← render l';
      Ok (r :: rs)
  end.

(** [NodesView.list] *)
Definition nodes_view_list (db : database)
  : outcome (list (NodeStatus (list NodeStat))) :=
  nodes ← list_loop db (db_last_active db) [];
  render nodes.

End Fleet.

(** ** The result shaper *)

(** A Python dictionary with text keys: its items in insertion order. *)
Definition pydict (V : Type) : Type := list (string * V).

Fixpoint dict_get {V} (k : string) (d : pydict V) : option V :=
  match d with
  | [] => None
  | (k', v) :: d' => if String.eqb k k' then Some v else dict_get k d'
  end.

(** [d[k] = v]: a present key keeps its place, a new one goes last. *)
Fixpoint dict_set {V} (k : string) (v : V) (d : pydict V) : pydict V :=
  match d with
  | [] => [(k, v)]
  | (k', v') :: d' =>
      if String.eqb k k' then (k, v) :: d' else (k', v') :: dict_set k v d'
  end.

(** [d.update(other)] *)
Definition dict_update {V} (d other : pydict V) : pydict V :=
  fold_left (λ acc kv, dict_set kv.1 kv.2 acc) other d.

Section Shaper.
(** The type of the numbers and times a row carries. *)
Context {V : Type}.

(** A row handed to the paginator. *)
Record data_stat : Type := {
  ds_city_name : string;
  ds_value_type : string;
  ds_average : V;
  ds_minimum : V;
  ds_maximum : V;
  ds_start_datetime : V;
  ds_end_datetime : V;
}.

(** What a key of a city's dictionary can hold: the city name, a list of
    summaries, or one summary dictionary. *)
Inductive entry : Type :=
| EStr (s : string)
| EList (l : list (pydict V))
| EDict (d : pydict V).

(** The dictionary of lines 84-90. *)
Definition summary (ds : data_stat) : pydict V :=
  [("average", ds_average ds);
   ("minimum", ds_minimum ds);
   ("maximum", ds_maximum ds);
   ("start_datetime", ds_start_datetime ds);
   ("end_datetime", ds_end_datetime ds)].

(** [[] if from_date else {}] *)
Definition empty_entry (from_date : option string) : entry :=
  if truthy from_date then EList [] else EDict [].

(** [getattr(values, "append" if from_date else "update")(item)]: a list
    has no [update], a dictionary no [append], a text neither. *)
Definition include_result (from_date : option string) (values : entry)
    (item : pydict V) : outcome entry :=
  match truthy from_date, values with
  | true, EList l => Ok (EList (l ++ [item]))
  | false, EDict d => Ok (EDict (dict_update d item))
  | _, _ => Raise AttributeError
  end.

(** The body of the loop of lines 67-91. *)
Definition shape_step (from_date : option string)
    (results : pydict (pydict entry)) (ds : data_stat)
  : outcome (pydict (pydict entry)) :=
  let city_name := ds_city_name ds in
  let value_type := ds_value_type ds in
  let results :=
    match dict_get city_name results with
    | None =>
        dict_set city_name
          (dict_set value_type (empty_entry from_date)
             [("city_name", EStr city_name)])
          results
    | Some _ => results
    end in
  let of_city := default [] (dict_get city_name results) in
  let of_city :=
    match dict_get value_type of_city with
    | None => dict_set value_type (empty_entry from_date) of_city
    | Some _ => of_city
    end in
  let values := default (EStr "") (dict_get value_type of_city) in
  values ← include_result from_date values (summary ds);
  Ok (dict_set city_name (dict_set value_type values of_city) results).

Fixpoint shape_loop (from_date : option string)
    (results : pydict (pydict entry)) (data_stats : list data_stat)
  : outcome (pydict (pydict entry)) :=
  match data_stats with
  | [] => Ok results
  | ds :: rest =>
      results ← shape_step from_date results ds;
      shape_loop from_date results rest
  end.

(** The body of the answer. *)
Record paginated : Type := {
  next : option string;
  previous : option string;
  count : nat;
  results : list (pydict entry);
}.

(** [CustomPagination.get_paginated_response]; the two links come from
    the paginator. *)
Definition get_paginated_response (from_date : option string)
    (next_link previous_link : option string) (data_stats : list data_stat)
  : outcome paginated :=
  results ← shape_loop from_date [] data_stats;
  Ok {| next := next_link;
        previous := previous_link;
        count := length (fst <$> results);
        results := snd <$> results |}.

(** The dictionary of a city in the answer, and the entry it holds for a
    value type. *)
Definition is_city (city : string) (d : pydict entry) : bool :=
  match dict_get "city_name" d with
  | Some (EStr s) => String.eqb s city
  | _ => false
  end.

Definition lookup_entry (city value_type : string) (p : paginated)
  : option entry :=
  of_city ← head (filter (λ d, is_city city d = true) (results p));
  dict_get value_type of_city.

End Shaper.

(** ** Notions the properties are stated with *)

(** The rows of a city and a value type, and what the answer is proved to
    hold for them: with a date range their summaries in order, without one
    the summary of the last of them. *)
Definition rows_of {V} (city value_type : string) (data_stats : list (@data_stat V))
  : list (@data_stat V) :=
  filter (λ ds, ds_city_name ds = city ∧ ds_value_type ds = value_type) data_stats.

Definition shaped_entry {V} (from_date : option string)
    (rows : list (@data_stat V)) : option (@entry V) :=
  match rows with
  | [] => None
  | _ :: _ =>
      Some (if truthy from_date then EList (summary <$> rows)
            else EDict (default [] (summary <$> last rows)))
  end.

(** The invariant of the shaping loop after the rows [seen]: every city's
    dictionary names its city, and holds for each value type what
    [shaped_entry] says of the rows seen for it. *)
Definition shaped {V} (from_date : option string) (seen : list (@data_stat V))
    (results : pydict (pydict (@entry V))) : Prop :=
  (∀ k of_city, (k, of_city) ∈ results →
     dict_get "city_name" of_city = Some (EStr k)) ∧
  (∀ city value_type, value_type ≠ "city_name" →
     dict_get city results ≫= dict_get value_type
       = shaped_entry from_date (rows_of city value_type seen)).

(** A node status names a node of the registry that has a sensor. *)
Definition has_sensors {S} (db : database) (st : NodeStatus S) : Prop :=
  ∃ n, n ∈ db_nodes db ∧ node_id n = status_node_id S st ∧ node_sensors n ≠ [].

(** ** Instances used to run the queries on examples *)

(** The number a signed decimal text denotes. *)
Fixpoint after_dot (w : list ascii) : list ascii :=
  match w with
  | [] => []
  | c :: w' => if Ascii.eqb c "." then w' else after_dot w'
  end.

Definition decimal_value (t : string) : Q :=
  let w := list_ascii_of_string t in
  let negative :=
    match w with
    | c :: _ => Ascii.eqb c "-"
    | [] => false
    end in
  let scale := Z.to_pos (10 ^ Z.of_nat (length (after_dot w))) in
  Qred (Qmake (if negative then - int w else int w) scale).

(** Exact rational arithmetic standing in for double precision: no
    rounding, and no text is out of range. *)
#[global] Instance exact_floats : FloatOps Q := {|
  cast_float t := Some (decimal_value t);
  fadd a b := Qred (a + b);
  fdiv_count a n := Qred (a / inject_Z (Z.of_nat n));
  fmin a b := if Qle_bool a b then a else b;
  fmax a b := if Qle_bool a b then b else a;
|}.

(** [DATE_TRUNC] in a UTC session for the units [minute], [hour] and
    [day]; the other units are left out of this instance. *)
Definition utc_date_trunc (unit : string) (t : Z) : option Z :=
  if String.eqb unit "minute" then Some (t - t mod minutes 1)%Z
  else if String.eqb unit "hour" then Some (t - t mod hours 1)%Z
  else if String.eqb unit "day" then Some (t - t mod DAY)%Z
  else None.

(** ** Example data *)

Definition example_now : Z := datetime 2023 6 1 12 0 0.

Definition reading_at (value_type value : string) (timestamp : Z) : Reading :=
  {| r_value_type := value_type; r_value := value; r_timestamp := timestamp;
     r_sensor := 1; r_node := 1; r_location := 1; r_city := "Nairobi" |}.

(** Four readings of one sensor: two valid ones inside January 2nd, one
    that is no number, and one at the first instant of January 4th. *)
Definition example_readings : list Reading :=
  [reading_at "P1" "9.5" (datetime 2023 1 2 10 0 0);
   reading_at "P1" "12" (datetime 2023 1 2 11 30 0);
   reading_at "humidity" "n/a" (datetime 2023 1 2 11 0 0);
   reading_at "P1" "7" (datetime 2023 1 4 0 0 0)].

Definition example_world : world :=
  {| now := example_now; readings := example_readings; executed := [] |}.

Definition stats_request (sensor_type : string)
    (from to value_type : option string) : request :=
  {| sensor_type := sensor_type; city := None; from := from; to := to;
     avg := None; value_type := value_type |}.

(** [GET /stats/air?from=2023-01-01&to=2023-01-03] *)
Definition january_request : request :=
  stats_request "air" (Some "2023-01-01") (Some "2023-01-03") None.

(** The parameters of the query of [january_request]. *)
Definition january_params : sql_params :=
  {| filter_value_types := ["P1"; "P2"; "humidity"; "temperature"];
     city_names := [];
     from_date := datetime 2023 1 1 0 0 0;
     to_date := datetime 2023 1 4 0 0 0;
     trunc := "day" |}.

(** [GET /stats/air?value_type=humidity,p1] and the tags it filters on. *)
Definition humidity_request : request :=
  stats_request "air" None None (Some "humidity,p1").

Definition humidity_params : sql_params :=
  Eval vm_compute in
    match prepare humidity_request example_now with
    | Ok p => p
    | Raise _ => january_params
    end.

(** The two rows [january_request] yields on [example_world]. *)
Definition january_second_bucket : @AggregateBucket Q :=
  {| city_name := "Nairobi";
     start_datetime := Some (datetime 2023 1 2 10 0 0);
     end_datetime := Some (datetime 2023 1 2 11 30 0);
     average := Some (43 # 4);
     minimum := Some (19 # 2);
     maximum := Some (12 # 1);
     bucket_value_type := "P1";
     debug := [("9.5", datetime 2023 1 2 10 0 0);
               ("12", datetime 2023 1 2 11 30 0)];
     time_bucket := datetime 2023 1 2 0 0 0;
     sample_count := 2 |}.

Definition january_fourth_bucket : @AggregateBucket Q :=
  {| city_name := "Nairobi";
     start_datetime := Some (datetime 2023 1 4 0 0 0);
     end_datetime := Some (datetime 2023 1 4 0 0 0);
     average := Some (7 # 1);
     minimum := Some (7 # 1);
     maximum := Some (7 # 1);
     bucket_value_type := "P1";
     debug := [("7", datetime 2023 1 4 0 0 0)];
     time_bucket := datetime 2023 1 4 0 0 0;
     sample_count := 1 |}.

(** Two rows of one city and value type, with whole numbers for values. *)
Definition first_row : @data_stat Z :=
  {| ds_city_name := "Nairobi"; ds_value_type := "P1";
     ds_average := 10%Z; ds_minimum := 8%Z; ds_maximum := 12%Z;
     ds_start_datetime := datetime 2023 1 1 0 5 0;
     ds_end_datetime := datetime 2023 1 1 23 55 0 |}.

Definition second_row : @data_stat Z :=
  {| ds_city_name := "Nairobi"; ds_value_type := "P1";
     ds_average := 20%Z; ds_minimum := 15%Z; ds_maximum := 31%Z;
     ds_start_datetime := datetime 2023 1 2 0 5 0;
     ds_end_datetime := datetime 2023 1 2 23 55 0 |}.

(** A stand-in for [slugify] on plain names: lower case, blanks to
    hyphens. *)
Definition plain_slug_char (c : ascii) : ascii :=
  if in_range 65 90 c then ascii_of_N (N_of_ascii c + 32)
  else if Ascii.eqb c " " then "-"%char else c.

Fixpoint plain_slug (s : string) : string :=
  match s with
  | EmptyString => EmptyString
  | String c s' => String (plain_slug_char c) (plain_slug s')
  end.

(** A fleet of two nodes at one place: the first has no sensor, the second
    has one; each has a last-active snapshot. *)
Definition depot : Location :=
  {| loc_id := 1; loc_location := "Depot"; loc_longitude := "36.82";
     loc_latitude := "-1.29"; loc_city := "Nairobi" |}.

Definition node_without_sensors : Node :=
  {| node_id := 1; node_uid := "node-1"; node_location := depot;
     node_sensors := [] |}.

Definition node_with_sensor : Node :=
  {| node_id := 2; node_uid := "node-2"; node_location := depot;
     node_sensors := [7%Z] |}.

Definition snapshot_of (n : Node) : LastActive :=
  {| la_node_id := node_id n; la_node_uid := node_uid n;
     la_location := node_location n; last_data_received_at := None |}.

Definition example_fleet : database :=
  {| db_readings := [];
     db_nodes := [node_without_sensors; node_with_sensor];
     db_last_active := [snapshot_of node_without_sensors;
                        snapshot_of node_with_sensor] |}.

(** The same fleet without the snapshot of the node that has no sensor. *)
Definition example_fleet_with_sensors : database :=
  {| db_readings := [];
     db_nodes := [node_without_sensors; node_with_sensor];
     db_last_active := [snapshot_of node_with_sensor] |}.

(** ** Notions of the further properties *)

(** The day after a day of the calendar. *)
Definition next_day (year month day : Z) : Z * Z * Z :=
  if (day <? days_in_month year month)%Z then (year, month, day + 1)%Z
  else if (month <? 12)%Z then (year, month + 1, 1)%Z
  else (year + 1, 1, 1)%Z.

(** The distinct texts of a list, in the order in which they first occur. *)
Definition distinct_in_order (l : list string) : list string :=
  fold_left (λ seen x, if bool_decide (x ∈ seen) then seen else seen ++ [x])
    l [].

(** The city a dictionary of the answer names. *)
Definition named_city {V} (of_city : pydict (@entry V)) : option string :=
  match dict_get "city_name" of_city with
  | Some (EStr s) => Some s
  | _ => None
  end.

(** What an element of the fleet answer says of a snapshot: the node and
    the place of the snapshot, its last date with the statistics of the
    five minutes before it, and whether the registered node is now
    elsewhere. *)
Definition reports {F} `{FloatOps F} (slugify : string → string)
    (db : database) (la : LastActive) (st : NodeStatus (list NodeStat)) : Prop :=
  status_node_id _ st = la_node_id la ∧
  status_node_uid _ st = la_node_uid la ∧
  status_location _ st = place_of slugify (la_location la) ∧
  status_last_data_received_at _ st = last_data_received_at la ∧
  match last_data_received_at la with
  | Some last => fleet_stats db la last = Ok (stats _ st)
  | None => stats _ st = []
  end ∧
  ∃ node,
    current_node db la = Ok node ∧
    node_moved _ st
      = bool_decide (loc_id (la_location la) ≠ loc_id (node_location node)) ∧
    moved_to _ st
      = if bool_decide (loc_id (la_location la) ≠ loc_id (node_location node))
        then Some (place_of slugify (node_location node))
        else None.

(** ** More example data *)

(** [GET /stats/air?value_type=pm10]: no configured tag is asked for. *)
Definition pm10_request : request :=
  stats_request "air" None None (Some "pm10").

Definition pm10_params : sql_params :=
  Eval vm_compute in
    match prepare pm10_request example_now with
    | Ok p => p
    | Raise _ => january_params
    end.

(** [GET /stats/air?from=2023-01-05&to=2023-01-01] *)
Definition reversed_request : request :=
  stats_request "air" (Some "2023-01-05") (Some "2023-01-01") None.

Definition reversed_params : sql_params :=
  Eval vm_compute in
    match prepare reversed_request example_now with
    | Ok p => p
    | Raise _ => january_params
    end.

(** A node with one sensor that reported the example readings, and its
    snapshot, last heard of at 11:30 on January 2nd. *)
Definition reporting_node : Node :=
  {| node_id := 1; node_uid := "node-1"; node_location := depot;
     node_sensors := [1%Z] |}.

Definition reporting_snapshot : LastActive :=
  {| la_node_id := 1; la_node_uid := "node-1"; la_location := depot;
     last_data_received_at := Some (datetime 2023 1 2 11 30 0) |}.

Definition reporting_fleet : database :=
  {| db_readings := example_readings;
     db_nodes := [reporting_node];
     db_last_active := [reporting_snapshot] |}.

Definition reporting_stats : list (@NodeStat Q) :=
  Eval vm_compute in
    match fleet_stats reporting_fleet reporting_snapshot
            (datetime 2023 1 2 11 30 0) with
    | Ok rows => rows
    | Raise _ => []
    end.

Definition reporting_answer : list (NodeStatus (list (@NodeStat Q))) :=
  Eval vm_compute in
    match nodes_view_list plain_slug reporting_fleet with
    | Ok out => out
    | Raise _ => []
    end.

(** * Properties *)

(** ** The matcher decides the denotation *)

Section RegexFacts.

Lemma star_one (L : list ascii → Prop) u : L u → star L u.
Proof.
  intros Hu. rewrite <- (app_nil_r u). by apply star_app, star_nil.
Qed.

Lemma star_concat (L : list ascii → Prop) u v :
  star L u → star L v → star L (u ++ v).
Proof.
  induction 1 as [|x y Hx Hy IH]; intros Hv; [done|].
  rewrite <- app_assoc. apply star_app; auto.
Qed.

(** A non-empty word of a starred language starts with a non-empty word of
    the language. *)
Lemma star_cons_inv (L : list ascii → Prop) a w :
  star L (a :: w) →
  ∃ u v, w = u ++ v ∧ L (a :: u) ∧ star L v.
Proof.
  intros H. remember (a :: w) as aw eqn:E. revert a w E.
  induction H as [|x y Hx Hy IH]; intros a w E; [done|].
  destruct x as [|b x]; simpl in E.
  - by apply IH.
  - injection E as -> <-. by exists x, y.
Qed.

Lemma nullable_spec r : nullable r = true ↔ lang r [].
Proof.
  induction r as [| |c| |r1 IH1 r2 IH2|r1 IH1 r2 IH2|r IH|r IH|r IH]; simpl.
  - by split.
  - by split.
  - by split.
  - split; [done|]. by intros (c & ? & _).
  - rewrite andb_true_iff, IH1, IH2. split.
    + intros [H1 H2]. by exists [], [].
    + intros (u & v & E & H1 & H2).
      symmetry in E. apply app_eq_nil in E as [-> ->]. by split.
  - by rewrite orb_true_iff, IH1, IH2.
  - split; [by left|done].
  - rewrite IH. split.
    + intros H. exists [], []. repeat split; [done|]. constructor.
    + intros (u & v & E & H1 & _).
      symmetry in E. by apply app_eq_nil in E as [-> ->].
  - split; [constructor|done].
Qed.

Lemma lang_deriv_star a r w :
  (∀ w', lang (deriv a r) w' ↔ lang r (a :: w')) →
  (∃ u v, w = u ++ v ∧ lang (deriv a r) u ∧ star (lang r) v) ↔
  star (lang r) (a :: w).
Proof.
  intros IH. split.
  - intros (u & v & -> & Hu & Hv).
    change (a :: u ++ v) with ((a :: u) ++ v).
    apply star_app; [by apply IH|done].
  - intros H. apply star_cons_inv in H as (u & v & -> & Hu & Hv).
    exists u, v. by rewrite IH.
Qed.

Lemma deriv_spec a r : ∀ w, lang (deriv a r) w ↔ lang r (a :: w).
Proof.
  induction r as [| |c| |r1 IH1 r2 IH2|r1 IH1 r2 IH2|r IH|r IH|r IH];
    intros w; simpl.
  - done.
  - done.
  - destruct (Ascii.eqb_spec a c) as [->|Hne]; simpl.
    + split; [by intros ->|]. by intros [= ->].
    + split; [done|]. by intros [= ? ?].
  - destruct (is_digit a) eqn:Hd; simpl.
    + split; [intros ->; by exists a|]. by intros (c & [= -> ->] & _).
    + split; [done|]. intros (c & [= -> ->] & Hc). congruence.
  - assert (Hseq :
      (∃ u v, w = u ++ v ∧ lang (deriv a r1) u ∧ lang r2 v) ↔
      (∃ u v, a :: w = u ++ v ∧ u ≠ [] ∧ lang r1 u ∧ lang r2 v)).
    { split.
      - intros (u & v & -> & Hu & Hv). exists (a :: u), v.
        repeat split; [done| |done]. by apply IH1.
      - intros (u & v & E & Hne & Hu & Hv). destruct u as [|b u]; [done|].
        injection E as -> ->. exists u, v. by rewrite IH1. }
    destruct (nullable r1) eqn:Hn; simpl.
    + rewrite Hseq, IH2. split.
      * intros [(u & v & E & _ & Hu & Hv)|H2]; [by exists u, v|].
        exists [], (a :: w). repeat split; [|done]. by apply nullable_spec.
      * intros (u & v & E & Hu & Hv). destruct u as [|b u].
        -- right. simpl in E. by rewrite E.
        -- left. exists (b :: u), v. by repeat split.
    + rewrite Hseq. split.
      * intros (u & v & E & _ & Hu & Hv). by exists u, v.
      * intros (u & v & E & Hu & Hv). exists u, v.
        repeat split; [done| |done|done]. intros ->.
        apply nullable_spec in Hu. congruence.
  - by rewrite IH1, IH2.
  - rewrite IH. split; [by right|]. by intros [?|?].
  - split.
    + intros (u & v & -> & Hu & Hv). exists (a :: u), v.
      repeat split; [by apply IH|done].
    + intros (u & v & E & Hu & Hv). destruct u as [|b u].
      * simpl in E. subst v. by apply lang_deriv_star.
      * injection E as -> ->. exists u, v. by rewrite IH.
  - by apply lang_deriv_star.
Qed.

Lemma matches_spec w : ∀ r, matches r w = true ↔ lang r w.
Proof.
  induction w as [|a w IH]; intros r; simpl.
  - apply nullable_spec.
  - by rewrite IH, deriv_spec.
Qed.

End RegexFacts.

(** ** The numeric value filter *)

Section NumericFilter.

Lemma star_digit w : star (lang Digit) w ↔ Forall (λ c, is_digit c = true) w.
Proof.
  split.
  - induction 1 as [|u v (c & -> & Hc) _ IH]; [constructor|].
    by constructor.
  - induction 1 as [|c w Hc _ IH]; [constructor|].
    change (c :: w) with ([c] ++ w). apply star_app; [by exists c|done].
Qed.

Lemma plus_digit w : lang (Plus Digit) w ↔ digits1 w.
Proof.
  simpl. split.
  - intros (u & v & -> & (c & -> & Hc) & Hv). split; [done|].
    constructor; [done|]. by apply star_digit.
  - intros [Hne Hall]. destruct w as [|c w]; [done|].
    inversion Hall as [|? ? Hc Hw]; subst.
    exists [c], w. repeat split; [by exists c|by apply star_digit].
Qed.

Lemma digits1_app u v : digits1 u → digits1 v → digits1 (u ++ v).
Proof.
  intros [Hu Fu] [_ Fv]. split.
  - by destruct u.
  - by apply Forall_app.
Qed.

Lemma lang_seq r1 r2 w :
  lang (Seq r1 r2) w ↔ ∃ u v, w = u ++ v ∧ lang r1 u ∧ lang r2 v.
Proof. done. Qed.

Lemma lang_opt r w : lang (Opt r) w ↔ w = [] ∨ lang r w.
Proof. done. Qed.

Lemma lang_chr c w : lang (Chr c) w ↔ w = [c].
Proof. done. Qed.

Lemma lang_sign w : lang (Opt (Chr "-")) w ↔ w = [] ∨ w = ["-"%char].
Proof. done. Qed.

Lemma lang_spec_value_pattern w :
  lang spec_value_pattern w ↔ signed_decimal w.
Proof.
  unfold spec_value_pattern, signed_decimal. split.
  - intros H. apply lang_seq in H as (s & x & -> & Hs & Hx).
    cbn in Hs.
    apply lang_seq in Hx as (i & f & -> & Hi & Hf).
    apply plus_digit in Hi. exists s, i, f. split_and!; [done..|].
    apply lang_opt in Hf as [->|Hf]; [by left|].
    apply lang_seq in Hf as (d & g & -> & Hd & Hg).
    cbn in Hd. subst d. apply plus_digit in Hg.
    right. by exists g.
  - intros (s & i & f & -> & Hs & Hi & Hf).
    apply lang_seq. exists s, (i ++ f). split_and!; [done..|].
    apply lang_seq. exists i, f. split_and!; [done|by apply plus_digit|].
    apply lang_opt. destruct Hf as [->|(g & -> & Hg)]; [by left|].
    right. apply lang_seq. exists ["."%char], g.
    split_and!; [done..|by apply plus_digit].
Qed.

(** The only words the optional dot adds are runs of two or more digits,
    which the integer part already covers. *)
Lemma lang_stat_value_pattern w :
  lang stat_value_pattern w ↔ signed_decimal w.
Proof.
  unfold stat_value_pattern, signed_decimal. split.
  - intros H. apply lang_seq in H as (s & x & -> & Hs & Hx).
    cbn in Hs.
    apply lang_seq in Hx as (i & f & -> & Hi & Hf).
    apply plus_digit in Hi.
    apply lang_opt in Hf as [->|Hf].
    { exists s, i, []. split_and!; [done..|by left]. }
    apply lang_seq in Hf as (d & g & -> & Hd & Hg).
    apply plus_digit in Hg. apply lang_opt in Hd as [->|Hd].
    + exists s, (i ++ g), []. rewrite !app_nil_r.
      split_and!; [done..|by apply digits1_app|by left].
    + cbn in Hd. subst d. exists s, i, ("."%char :: g).
      split_and!; [done..|]. right. by exists g.
  - intros (s & i & f & -> & Hs & Hi & Hf).
    apply lang_seq. exists s, (i ++ f). split_and!; [done..|].
    apply lang_seq. exists i, f. split_and!; [done|by apply plus_digit|].
    apply lang_opt. destruct Hf as [->|(g & -> & Hg)]; [by left|].
    right. apply lang_seq. exists ["."%char], g.
    split_and!; [done|by right|by apply plus_digit].
Qed.

(** C1. A value text is admitted into aggregation, on the statistics path
    and on the fleet status path alike, exactly when it matches
    [^-?\d+(\.\d+)?$]: an optional leading minus sign, one or more digits,
    optionally a dot followed by one or more digits.  Both [WHERE] clauses
    demand it.  The empty text, two signs, two decimal points, letters and
    scientific notation are rejected. *)
Theorem numeric_filter_matches_spec_regex :
  (∀ t : string,
     (is_valid_numeric t = true ↔
        lang spec_value_pattern (list_ascii_of_string t)) ∧
     (is_valid_numeric t = regex_match spec_value_pattern t) ∧
     (fleet_is_valid_numeric t = is_valid_numeric t) ∧
     (is_valid_numeric t = true ↔ signed_decimal (list_ascii_of_string t))) ∧
  (∀ p r, stat_where p r = true → is_valid_numeric (r_value r) = true) ∧
  (∀ la last r, fleet_where la last r = true →
     fleet_is_valid_numeric (r_value r) = true) ∧
  is_valid_numeric "" = false ∧
  is_valid_numeric "--1" = false ∧
  is_valid_numeric "+1" = false ∧
  is_valid_numeric "1.2.3" = false ∧
  is_valid_numeric "1." = false ∧
  is_valid_numeric ".5" = false ∧
  is_valid_numeric "12a" = false ∧
  is_valid_numeric "1e5" = false ∧
  is_valid_numeric "-12.50" = true ∧
  is_valid_numeric "007" = true.
Proof.
  split; [|split_and!; try done].
  2:{ unfold stat_where. intros p r Hw.
      repeat (apply andb_true_iff in Hw as [Hw ?]). done. }
  2:{ unfold fleet_where. intros la last r Hw.
      by apply andb_true_iff in Hw as [_ Hw]. }
  intros t. set (w := list_ascii_of_string t).
  assert (Hstat : is_valid_numeric t = true ↔ signed_decimal w).
  { unfold is_valid_numeric, regex_match.
    by rewrite matches_spec, lang_stat_value_pattern. }
  assert (Hspec : regex_match spec_value_pattern t = true ↔ signed_decimal w).
  { unfold regex_match.
    by rewrite matches_spec, lang_spec_value_pattern. }
  split_and!.
  - by rewrite Hstat, lang_spec_value_pattern.
  - apply eq_true_iff_eq. by rewrite Hstat, Hspec.
  - done.
  - done.
Qed.

End NumericFilter.

(** ** Date checks and the unknown sensor type *)

Section Requests.
Context {F : Type} `{FloatOps F}.
Variable date_trunc : string → Z → option Z.

Lemma strptime_raises s e : strptime s = Raise e → e = ValueError.
Proof.
  unfold strptime. repeat case_match; congruence.
Qed.

Lemma validate_date_cases s error :
  validate_date s error = Ok () ∨
  validate_date s error = Raise (ValidationError error.1 error.2).
Proof.
  unfold validate_date. destruct (strptime s) as [t|e] eqn:E; [by left|].
  apply strptime_raises in E as ->. by right.
Qed.

Lemma check_dates_raises from_date to_date e :
  check_dates from_date to_date = Raise e → ∃ f m, e = ValidationError f m.
Proof.
  unfold check_dates. intros E.
  destruct (truthy to_date && negb (truthy from_date)); simpl in E.
  { injection E as <-. eauto. }
  destruct (truthy from_date); simpl in E.
  - destruct (validate_date_cases (text from_date)
      ("from", "Must be a date in the format Y-m-d.")) as [R|R];
      rewrite R in E; simpl in E.
    + destruct (truthy to_date); [|done].
      destruct (validate_date_cases (text to_date)
        ("to", "Must be a date in the format Y-m-d.")) as [R'|R'];
        rewrite R' in E; [done|]. injection E as <-. eauto.
    + injection E as <-. eauto.
  - destruct (truthy to_date); [|done].
    destruct (validate_date_cases (text to_date)
      ("to", "Must be a date in the format Y-m-d.")) as [R'|R'];
      rewrite R' in E; [done|]. injection E as <-. eauto.
Qed.

(** C7. When [to] is given and [from] is not, resolution fails with a
    validation error; the view raises it before it executes any query: the
    log of executed queries, like the rest of the state, is unchanged and
    no row is computed. *)
Theorem to_without_from_is_rejected (rq : request) (w : world) :
  truthy (to rq) = true →
  truthy (from rq) = false →
  resolve (from rq) (to rq) (now w)
    = Raise (ValidationError "from" "Must be provide along with to query") ∧
  get_queryset date_trunc rq w
    = (Raise (ValidationError "from" "Must be provide along with to query"), w) ∧
  executed (get_queryset date_trunc rq w).2 = executed w.
Proof.
  intros Hto Hfrom.
  assert (E : check_dates (from rq) (to rq)
    = Raise (ValidationError "from" "Must be provide along with to query")).
  { unfold check_dates. by rewrite Hto, Hfrom. }
  assert (G : get_queryset date_trunc rq w
    = (Raise (ValidationError "from" "Must be provide along with to query"), w)).
  { unfold get_queryset, prepare. by rewrite E. }
  split_and!; [|done|by rewrite G].
  unfold resolve. by rewrite E.
Qed.

(** C6, as the code has it.  For a sensor type that is not a key of
    [value_types] the view never answers Not Found and never executes a
    query: it raises the validation error of the date checks when they
    fail, and otherwise the [KeyError] of the lookup, which no handler
    catches. *)
Theorem unknown_sensor_type_raises (rq : request) (w : world) :
  value_types !! sensor_type rq = None →
  (check_dates (from rq) (to rq) = Ok () →
     get_queryset date_trunc rq w = (Raise (KeyError (sensor_type rq)), w)) ∧
  (∀ e, check_dates (from rq) (to rq) = Raise e →
     get_queryset date_trunc rq w = (Raise e, w) ∧
     ∃ f m, e = ValidationError f m) ∧
  http_status (get_queryset date_trunc rq w).1 ≠ 404%Z ∧
  (get_queryset date_trunc rq w).2 = w.
Proof.
  intros Hkey.
  assert (Hsel : select_value_types (sensor_type rq) (value_type rq)
                 = Raise (KeyError (sensor_type rq))).
  { unfold select_value_types. by rewrite Hkey. }
  unfold get_queryset, prepare.
  destruct (check_dates (from rq) (to rq)) as [[]|e] eqn:E; simpl.
  - rewrite Hsel. simpl. split_and!; [done|done|done|done].
  - destruct (check_dates_raises _ _ _ E) as (f & m & ->).
    split_and!; [done| |done|done].
    intros e [= <-]. split; [done|eauto].
Qed.

End Requests.

(** ** The value types of the filter *)

Section ValueTypes.

Lemma code_upper_char c :
  code (upper_char c) = if in_range 97 122 c then (code c - 32)%Z else code c.
Proof.
  unfold upper_char. destruct (in_range 97 122 c) eqn:E; [|done].
  unfold in_range in E. apply andb_true_iff in E as [E1 E2].
  apply Z.leb_le in E1, E2. unfold code in *.
  rewrite N_ascii_embedding by lia. lia.
Qed.

Lemma code_inj c1 c2 : code c1 = code c2 → c1 = c2.
Proof.
  unfold code. intros E. apply N2Z.inj in E.
  rewrite <- (ascii_N_embedding c1), <- (ascii_N_embedding c2). by rewrite E.
Qed.

Lemma upper_char_idemp c : upper_char (upper_char c) = upper_char c.
Proof.
  apply code_inj. rewrite (code_upper_char (upper_char c)).
  unfold in_range at 1. rewrite code_upper_char.
  destruct (in_range 97 122 c) eqn:E; unfold in_range in E.
  - apply andb_true_iff in E as [E1 E2]. apply Z.leb_le in E1, E2.
    destruct (97 <=? code c - 32)%Z eqn:X; [|done].
    apply Z.leb_le in X. lia.
  - by rewrite E.
Qed.

Lemma upper_idemp s : upper (upper s) = upper s.
Proof.
  induction s as [|c s IH]; simpl; [done|]. by rewrite upper_char_idemp, IH.
Qed.

Lemma select_value_types_given st p allowed :
  value_types !! st = Some allowed →
  truthy p = true →
  ∃ tags, select_value_types st p = Ok tags ∧
    ∀ t, t ∈ tags ↔
      t ∈ split "," (upper (text p)) ∧ t ∈ upper <$> allowed.
Proof.
  intros Hst Hp. unfold select_value_types. rewrite Hst, Hp.
  eexists. split; [done|]. intros t.
  by rewrite elem_of_elements, elem_of_intersection, !elem_of_list_to_set.
Qed.

(** C10. When a request names value types, the tags the query filters on
    are the upper-cased names asked for that are also upper-cased
    configured tags, so each of them is in upper case; the query compares
    the stored tag with them as it is, so a reading whose stored tag has a
    lower-case letter (the stored choices include [humidity] and
    [temperature]) is selected only by a request without a [value_type]
    parameter, whose tags are the configured ones unchanged. *)
Theorem filter_value_types_upper_case (rq : request) (now : Z) (p : sql_params) :
  prepare rq now = Ok p →
  (truthy (value_type rq) = true →
     ∀ t, t ∈ filter_value_types p ↔
       t ∈ split "," (upper (text (value_type rq))) ∧
       ∃ allowed, value_types !! sensor_type rq = Some allowed ∧
                  t ∈ upper <$> allowed) ∧
  (truthy (value_type rq) = true →
     ∀ t, t ∈ filter_value_types p → upper t = t) ∧
  (∀ r, stat_where p r = true → upper (r_value_type r) ≠ r_value_type r →
     truthy (value_type rq) = false) ∧
  (truthy (value_type rq) = false →
     value_types !! sensor_type rq = Some (filter_value_types p)) ∧
  "humidity" ∈ stored_value_types ∧ upper "humidity" ≠ "humidity" ∧
  "temperature" ∈ stored_value_types ∧ upper "temperature" ≠ "temperature".
Proof.
  intros Hp. unfold prepare in Hp.
  destruct (check_dates (from rq) (to rq)) as [[]|e]; [simpl in Hp|done].
  destruct (select_value_types (sensor_type rq) (value_type rq))
    as [tags|e] eqn:Hsel; [simpl in Hp|done].
  destruct (resolve_window (from rq) (to rq) now) as [[f t]|e];
    [simpl in Hp|done].
  injection Hp as <-. simpl.
  assert (Hup : truthy (value_type rq) = true →
    ∀ t, t ∈ tags ↔
       t ∈ split "," (upper (text (value_type rq))) ∧
       ∃ allowed, value_types !! sensor_type rq = Some allowed ∧
                  t ∈ upper <$> allowed).
  { intros Ht t'. unfold select_value_types in Hsel.
    destruct (value_types !! sensor_type rq) as [allowed|] eqn:Hst; [|done].
    destruct (select_value_types_given _ _ _ Hst Ht) as (tags' & E & Htags).
    unfold select_value_types in E. rewrite Hst in E.
    rewrite E in Hsel. injection Hsel as ->. rewrite Htags.
    split; [intros [? ?]; eauto|]. by intros [? (? & [= <-] & ?)]. }
  assert (Hcase : truthy (value_type rq) = true → ∀ t, t ∈ tags → upper t = t).
  { intros Ht t' Hin. apply (Hup Ht) in Hin as [_ (allowed & _ & Hin)].
    apply list_elem_of_fmap in Hin as (a & -> & _). apply upper_idemp. }
  split_and!; [done|done| | |compute_done|done|compute_done|done].
  - intros r Hr Hlow. destruct (truthy (value_type rq)) eqn:Ht; [|done].
    exfalso. apply Hlow, (Hcase eq_refl).
    unfold stat_where in Hr. simpl in Hr.
    repeat (apply andb_true_iff in Hr as [Hr _]).
    by apply bool_decide_eq_true in Hr.
  - intros Ht. unfold select_value_types in Hsel.
    destruct (value_types !! sensor_type rq) as [allowed|]; [|done].
    rewrite Ht in Hsel. by injection Hsel as ->.
Qed.

End ValueTypes.

(** ** The time window *)

Section TimeWindow.
Local Open Scope Z_scope.

Lemma days_before_year_nonneg year : 1 ≤ year → 0 ≤ days_before_year year.
Proof. unfold days_before_year. intros Hy. Z.div_mod_to_equations. lia. Qed.

Lemma days_before_month_nonneg year month :
  1 ≤ month ≤ 12 → 0 ≤ days_before_month year month.
Proof.
  intros Hm. unfold days_before_month.
  assert (0 ≤ DAYS_BEFORE_MONTH month).
  { assert (Hc : month = 1 ∨ month = 2 ∨ month = 3 ∨ month = 4 ∨ month = 5 ∨
                 month = 6 ∨ month = 7 ∨ month = 8 ∨ month = 9 ∨ month = 10 ∨
                 month = 11 ∨ month = 12) by lia.
    repeat (destruct Hc as [->|Hc]; [simpl; lia|]). subst. simpl. lia. }
  destruct ((2 <? month) && is_leap year); lia.
Qed.

Lemma check_date_fields_ordinal year month day :
  check_date_fields year month day = true → 1 ≤ ymd2ord year month day.
Proof.
  unfold check_date_fields, MINYEAR. intros Hc.
  repeat (apply andb_true_iff in Hc as [Hc ?]).
  pose proof (days_before_year_nonneg year).
  pose proof (days_before_month_nonneg year month).
  unfold ymd2ord. lia.
Qed.

(** A text that parses denotes midnight of a day of the calendar. *)
Lemma strptime_midnight s t :
  strptime s = Ok t →
  ∃ year month day,
    check_date_fields year month day = true ∧
    t = datetime year month day 0 0 0.
Proof.
  unfold strptime. intros E. repeat case_match; try done.
  injection E as <-. eauto.
Qed.

Lemma strptime_toordinal s t : strptime s = Ok t → 1 ≤ toordinal t ∧ t mod DAY = 0.
Proof.
  intros E. apply strptime_midnight in E as (y & m & d & Hc & ->).
  apply check_date_fields_ordinal in Hc.
  unfold toordinal, datetime, hours, minutes, DAY in *.
  Z.div_mod_to_equations. lia.
Qed.

Lemma strptime_truthy s t : strptime s = Ok t → truthy (Some s) = true.
Proof. by destruct s. Qed.

Lemma validate_date_parses s t error :
  strptime s = Ok t → validate_date s error = Ok ().
Proof. unfold validate_date. by intros ->. Qed.

Lemma check_dates_both from_str to_str start finish :
  strptime from_str = Ok start →
  strptime to_str = Ok finish →
  check_dates (Some from_str) (Some to_str) = Ok ().
Proof.
  intros Hf Ht. unfold check_dates.
  rewrite (strptime_truthy _ _ Hf), (strptime_truthy _ _ Ht). simpl.
  by rewrite (validate_date_parses _ _ _ Hf), (validate_date_parses _ _ _ Ht).
Qed.

Lemma resolve_window_both from_str to_str start finish now :
  strptime from_str = Ok start →
  strptime to_str = Ok finish →
  toordinal finish < MAXORDINAL →
  resolve_window (Some from_str) (Some to_str) now
    = Ok (start, finish + hours 24).
Proof.
  intros Hf Ht Hmax. unfold resolve_window.
  rewrite (strptime_truthy _ _ Hf), (strptime_truthy _ _ Ht). simpl.
  unfold beginning_of_day, end_of_day, beginning_of_day. rewrite Hf, Ht. simpl.
  unfold datetime_add.
  apply strptime_toordinal in Ht as [Hord Hmid].
  assert (E : toordinal (finish + hours 24) = toordinal finish + 1).
  { unfold toordinal, hours, DAY in *. Z.div_mod_to_equations. lia. }
  rewrite E.
  destruct (0 <? toordinal finish + 1) eqn:E1; [|lia].
  destruct (toordinal finish + 1 <=? MAXORDINAL) eqn:E2; [done|lia].
Qed.

(** C3, as the code has it.  When both dates are given and valid, and the
    [to] day is not the last day of the calendar, the window starts at
    midnight UTC of the [from] day and ends 24 hours after midnight UTC of
    the [to] day, whatever the clock and the granularity; these are the
    bounds the view hands to the query.  From 2023-01-01 to 2023-01-03 it
    runs from 2023-01-01T00:00Z to 2023-01-04T00:00Z. *)
Theorem resolve_both_dates (from_str to_str : string) (start finish now : Z) :
  strptime from_str = Ok start →
  strptime to_str = Ok finish →
  toordinal finish < MAXORDINAL →
  resolve (Some from_str) (Some to_str) now = Ok (start, finish + hours 24) ∧
  (∀ rq p, from rq = Some from_str → to rq = Some to_str →
     prepare rq now = Ok p →
     from_date p = start ∧ to_date p = finish + hours 24) ∧
  resolve (Some "2023-01-01") (Some "2023-01-03") now
    = Ok (datetime 2023 1 1 0 0 0, datetime 2023 1 4 0 0 0).
Proof.
  intros Hf Ht Hmax.
  pose proof (check_dates_both _ _ _ _ Hf Ht) as Hc.
  pose proof (resolve_window_both _ _ _ _ now Hf Ht Hmax) as Hw.
  split_and!.
  - unfold resolve. by rewrite Hc.
  - intros rq p Hfrom Hto Hp. unfold prepare in Hp.
    rewrite Hfrom, Hto, Hc, Hw in Hp. simpl in Hp.
    destruct (select_value_types (sensor_type rq) (value_type rq));
      [simpl in Hp|done].
    by injection Hp as <-.
  - done.
Qed.

End TimeWindow.

(** ** Which texts parse as a date *)

Section DateTexts.

Lemma elem_one p w a r :
  (a, r) ∈ one p w → ∃ c, w = c :: r ∧ a = [c] ∧ p c = true.
Proof.
  unfold one. destruct w as [|c w]; [by intros ?%elem_of_nil|].
  destruct (p c) eqn:E; [|by intros ?%elem_of_nil].
  intros [= -> ->]%list_elem_of_singleton. eauto.
Qed.

Lemma elem_then m1 m2 w a r :
  (a, r) ∈ then_ m1 m2 w →
  ∃ a1 r1 a2, (a1, r1) ∈ m1 w ∧ (a2, r) ∈ m2 r1 ∧ a = a1 ++ a2.
Proof.
  unfold then_. intros ([a1 r1] & Hin & H1)%list_elem_of_bind.
  apply list_elem_of_bind in Hin as ([a2 r2] & Hin & H2).
  apply list_elem_of_singleton in Hin as [= -> ->]. eauto 10.
Qed.

Lemma elem_or m1 m2 w a r :
  (a, r) ∈ or_ m1 m2 w → (a, r) ∈ m1 w ∨ (a, r) ∈ m2 w.
Proof. unfold or_. apply elem_of_app. Qed.

Lemma elem_lit_then x m w a r :
  (a, r) ∈ then_ (lit x) m w →
  ∃ w' a', w = x :: w' ∧ (a', r) ∈ m w' ∧ a = x :: a'.
Proof.
  intros (a1 & r1 & a2 & H1 & H2 & ->)%elem_then.
  apply elem_one in H1 as (c & -> & -> & <-%Ascii.eqb_eq). eauto.
Qed.

Lemma elem_group_Y w y r : (y, r) ∈ group_Y w → w = y ++ r ∧ year_text y.
Proof.
  unfold group_Y, d09.
  intros (a1 & r1 & b1 & (c1 & -> & -> & H1)%elem_one & H & ->)%elem_then.
  apply elem_then in H as (a2 & r2 & b2 & (c2 & -> & -> & H2)%elem_one & H & ->).
  apply elem_then in H as (a3 & r3 & b3 & (c3 & -> & -> & H3)%elem_one & H & ->).
  apply elem_one in H as (c4 & -> & -> & H4).
  split; [done|]. split; [done|]. by repeat constructor.
Qed.

Lemma elem_group_m w m r : (m, r) ∈ group_m w → w = m ++ r ∧ month_text m.
Proof.
  unfold group_m, d19, month_text.
  intros [H|[H|H]%elem_or]%elem_or.
  - apply elem_lit_then in H as (w' & a' & -> & (c & -> & -> & Hc)%elem_one & ->).
    split; [done|]. right. right. eauto.
  - apply elem_lit_then in H as (w' & a' & -> & (c & -> & -> & Hc)%elem_one & ->).
    split; [done|]. right. left. eauto.
  - apply elem_one in H as (c & -> & -> & Hc). split; [done|]. left. eauto.
Qed.

Lemma elem_group_d w d r : (d, r) ∈ group_d w → w = d ++ r ∧ day_text d.
Proof.
  unfold group_d, d19, d09, day_text.
  intros [H|[H|[H|[H|H]%elem_or]%elem_or]%elem_or]%elem_or.
  - apply elem_lit_then in H as (w' & a' & -> & (c & -> & -> & Hc)%elem_one & ->).
    split; [done|]. do 3 right. left. eauto.
  - apply elem_then in H
      as (a1 & r1 & a2 & (a & -> & -> & Ha)%elem_one
                       & (c & -> & -> & Hc)%elem_one & ->).
    split; [done|]. do 2 right. left. eauto.
  - apply elem_lit_then in H as (w' & a' & -> & (c & -> & -> & Hc)%elem_one & ->).
    split; [done|]. right. left. eauto.
  - apply elem_one in H as (c & -> & -> & Hc). split; [done|]. left. eauto.
  - apply elem_lit_then in H as (w' & a' & -> & (c & -> & -> & Hc)%elem_one & ->).
    split; [done|]. do 4 right. eauto.
Qed.

Lemma elem_lit x w a r : (a, r) ∈ lit x w → w = x :: r.
Proof. by intros (c & -> & -> & <-%Ascii.eqb_eq)%elem_one. Qed.

Lemma elem_format_regex w y m d rest :
  (y, m, d, rest) ∈ format_regex w →
  w = y ++ "-"%char :: m ++ "-"%char :: d ++ rest ∧
  year_text y ∧ month_text m ∧ day_text d.
Proof.
  unfold format_regex.
  intros ([y' r1] & Hin & [-> Hy]%elem_group_Y)%list_elem_of_bind.
  apply list_elem_of_bind in Hin as ([x1 r2] & Hin & ->%elem_lit).
  apply list_elem_of_bind in Hin as ([m' r3] & Hin & [-> Hm]%elem_group_m).
  apply list_elem_of_bind in Hin as ([x2 r4] & Hin & ->%elem_lit).
  apply list_elem_of_bind in Hin as ([d' r5] & Hin & [-> Hd]%elem_group_d).
  apply list_elem_of_singleton in Hin as [= -> -> -> ->].
  done.
Qed.

End DateTexts.

(** ** The first match of the date pattern *)

(** Evaluate a character test on a known character, use a known fact
    about a character, or split on a test that is still open. *)
Ltac eval_test t :=
  let v := eval vm_compute in t in
  match v with
  | true => change t with true
  | false => change t with false
  end.

Ltac char_step :=
  match goal with
  | H : ?b = true |- context [if ?b then _ else _] => rewrite H
  | |- context [if Ascii.eqb ?a ?c then _ else _] => eval_test (Ascii.eqb a c)
  | |- context [if in_range ?a ?b ?c then _ else _] => eval_test (in_range a b c)
  | |- context [if Ascii.eqb ?a ?c then _ else _] =>
      destruct (Ascii.eqb_spec a c); subst
  | |- context [if in_range ?a ?b ?c then _ else _] =>
      destruct (in_range a b c) eqn:?
  end; cbn -[Ascii.eqb in_range group_d].

Section FirstMatch.

Lemma group_d_head d : day_text d → head (group_d d) = Some (d, []).
Proof.
  unfold day_text, group_d, or_, then_, lit, d19, d09, one.
  intros [(c & -> & Hc)|[(c & -> & Hc)|[(a & c & -> & Ha & Hc)|
          [(c & -> & Hc)|(c & -> & Hc)]]]];
    cbn -[Ascii.eqb in_range]; repeat char_step; done.
Qed.

(** On a text of the accepted shape the first match of the engine is the
    one that consumes the whole text. *)
Lemma format_regex_head y m d :
  year_text y → month_text m → day_text d →
  head (format_regex (y ++ "-"%char :: m ++ "-"%char :: d))
    = Some (y, m, d, []).
Proof.
  intros [Hlen Hy] Hm Hd.
  apply group_d_head, head_Some in Hd as [l' Hd].
  destruct y as [|y1 [|y2 [|y3 [|y4 [|]]]]]; try done.
  apply Forall_cons in Hy as [H1 Hy]. apply Forall_cons in Hy as [H2 Hy].
  apply Forall_cons in Hy as [H3 Hy]. apply Forall_cons in Hy as [H4 _].
  change (in_range 48 57 y1 = true) in H1.
  change (in_range 48 57 y2 = true) in H2.
  change (in_range 48 57 y3 = true) in H3.
  change (in_range 48 57 y4 = true) in H4.
  unfold format_regex, group_Y, group_m, or_, then_, lit, d19, d09, one.
  destruct Hm as [(c & -> & Hc)|[(c & -> & Hc)|(c & -> & Hc)]];
    cbn -[Ascii.eqb in_range group_d]; rewrite ?H1, ?H2, ?H3, ?H4;
    cbn -[Ascii.eqb in_range group_d];
    repeat char_step; by rewrite Hd.
Qed.

Lemma strptime_ok_iff s :
  (∃ t, strptime s = Ok t) ↔ date_text (list_ascii_of_string s).
Proof.
  unfold strptime, date_text. split.
  - intros [t E].
    destruct (head (format_regex (list_ascii_of_string s)))
      as [[[[y m] d] rest]|] eqn:Hhead; [|done].
    apply head_Some in Hhead as [l' Hl].
    assert (Hin : (y, m, d, rest) ∈ format_regex (list_ascii_of_string s))
      by (rewrite Hl; left).
    apply elem_format_regex in Hin as (Hw & Hy & Hm & Hd).
    case_bool_decide as Hrest; [subst rest|done].
    destruct (check_date_fields (int y) (int m) (int d)) eqn:Hc; [|done].
    exists y, m, d. rewrite app_nil_r in Hw. done.
  - intros (y & m & d & -> & Hy & Hm & Hd & Hc).
    rewrite (format_regex_head _ _ _ Hy Hm Hd), Hc.
    rewrite bool_decide_eq_true_2 by done. eauto.
Qed.


Lemma validate_date_ok_iff s error :
  validate_date s error = Ok () ↔ date_text (list_ascii_of_string s).
Proof.
  rewrite <- strptime_ok_iff. unfold validate_date. split.
  - destruct (strptime s) as [t|e] eqn:E; [eauto|].
    apply strptime_raises in E as ->. done.
  - by intros [t ->].
Qed.

End FirstMatch.

(** ** Validation of the date parameters *)

Section DateValidation.




End DateValidation.

(** ** The properties on the example data *)


(** C3 as stated fails on the last day of the calendar: adding 24 hours
    leaves the range of [datetime]. *)
Lemma last_day_overflows :
  strptime "2023-01-01" = Ok (datetime 2023 1 1 0 0 0) ∧
  strptime "9999-12-31" = Ok (datetime 9999 12 31 0 0 0) ∧
  check_dates (Some "2023-01-01") (Some "9999-12-31") = Ok () ∧
  resolve (Some "2023-01-01") (Some "9999-12-31") example_now
    = Raise OverflowError.
Proof. by vm_compute. Qed.

(** C3 on January 1st to January 3rd. *)
Lemma resolve_both_dates_witness :
  strptime "2023-01-01" = Ok (datetime 2023 1 1 0 0 0) ∧
  strptime "2023-01-03" = Ok (datetime 2023 1 3 0 0 0) ∧
  resolve (Some "2023-01-01") (Some "2023-01-03") example_now
    = Ok (datetime 2023 1 1 0 0 0, (datetime 2023 1 3 0 0 0 + hours 24)%Z).
Proof.
  split; [reflexivity|]. split; [reflexivity|].
  apply (resolve_both_dates "2023-01-01" "2023-01-03"
           (datetime 2023 1 1 0 0 0) (datetime 2023 1 3 0 0 0) example_now);
    reflexivity.
Defined.

(** C7 on a request that gives only [to]. *)
Lemma to_without_from_is_rejected_witness :
  truthy (to (stats_request "air" None (Some "2023-01-03") None)) = true ∧
  truthy (from (stats_request "air" None (Some "2023-01-03") None)) = false ∧
  get_queryset utc_date_trunc
    (stats_request "air" None (Some "2023-01-03") None) example_world
    = (Raise (ValidationError "from" "Must be provide along with to query"),
       example_world).
Proof.
  split; [reflexivity|]. split; [reflexivity|].
  apply (to_without_from_is_rejected utc_date_trunc
           (stats_request "air" None (Some "2023-01-03") None) example_world);
    reflexivity.
Defined.

(** C6 as stated fails: an unknown sensor type is a [KeyError], which the
    framework answers with a server error. *)
Lemma unknown_sensor_type_is_a_server_error :
  value_types !! "water" = None ∧
  (get_queryset utc_date_trunc (stats_request "water" None None None)
     example_world).1 = Raise (KeyError "water") ∧
  http_status (get_queryset utc_date_trunc (stats_request "water" None None None)
     example_world).1 = 500%Z.
Proof. by vm_compute. Qed.

(** C6, as the code has it, on the sensor type [water]. *)
Lemma unknown_sensor_type_raises_witness :
  value_types !! "water" = None ∧
  get_queryset utc_date_trunc (stats_request "water" None None None)
    example_world = (Raise (KeyError "water"), example_world).
Proof.
  split; [reflexivity|].
  exact (proj1 (unknown_sensor_type_raises utc_date_trunc
                  (stats_request "water" None None None) example_world
                  eq_refl) eq_refl).
Defined.

(** C10 on a request for [humidity,p1]. *)
Lemma filter_value_types_upper_case_witness :
  prepare humidity_request example_now = Ok humidity_params ∧
  filter_value_types humidity_params = ["HUMIDITY"; "P1"] ∧
  ∀ t, t ∈ filter_value_types humidity_params → upper t = t.
Proof.
  split; [reflexivity|]. split; [reflexivity|].
  apply (filter_value_types_upper_case humidity_request example_now
           humidity_params); reflexivity.
Defined.

(** ** Grouping and the emitted buckets *)

Section Grouping.
Context {K A : Type} `{EqDecision K}.
Variable key : A → K.

Lemma group_by_elem l k g :
  (k, g) ∈ group_by key l →
  g = filter (λ x, key x = k) l ∧ ∃ x, x ∈ l ∧ key x = k.
Proof.
  unfold group_by. intros (k' & [= -> ->] & Hk)%list_elem_of_fmap.
  split; [done|].
  apply elem_of_remove_dups, list_elem_of_fmap in Hk as (x & -> & Hx). eauto.
Qed.

Lemma group_by_nonempty l k g : (k, g) ∈ group_by key l → g ≠ [].
Proof.
  intros [-> (x & Hx & Hk)]%group_by_elem Hnil.
  by eapply (filter_nil_not_elem_of _ _ x).
Qed.

Lemma group_by_member l k g x :
  (k, g) ∈ group_by key l → x ∈ g → x ∈ l ∧ key x = k.
Proof.
  intros [-> _]%group_by_elem [? ?]%list_elem_of_filter. done.
Qed.

End Grouping.

Section Extremes.
Local Open Scope Z_scope.

Lemma fold_left_min_le l x : fold_left Z.min l x ≤ x.
Proof.
  revert x. induction l as [|y l IH]; intros x; simpl; [lia|].
  specialize (IH (Z.min x y)). lia.
Qed.

Lemma fold_left_max_ge l x : x ≤ fold_left Z.max l x.
Proof.
  revert x. induction l as [|y l IH]; intros x; simpl; [lia|].
  specialize (IH (Z.max x y)). lia.
Qed.

Lemma aggregate_min_le_max (l : list Z) :
  l ≠ [] →
  ∃ a b, aggregate Z.min l = Some a ∧ aggregate Z.max l = Some b ∧ a ≤ b.
Proof.
  destruct l as [|x l]; [done|]. intros _. simpl.
  eexists _, _. split_and!; [done..|].
  pose proof (fold_left_min_le l x). pose proof (fold_left_max_ge l x). lia.
Qed.

End Extremes.

Section Buckets.
Context {F : Type} `{FloatOps F}.
Variable date_trunc : string → Z → option Z.

Lemma sample_of_reading unit r s :
  sample_of date_trunc unit r = Some s →
  s_reading s = r ∧ date_trunc unit (r_timestamp r) = Some (s_bucket s).
Proof.
  unfold sample_of. destruct (date_trunc unit (r_timestamp r)) as [b|]; [|done].
  simpl. destruct (cast_float (r_value r)) as [x|]; [|done].
  simpl. by intros [= <-].
Qed.

(** Every sample of the query comes from a reading that passed [WHERE]. *)
Lemma samples_admitted p table samples s :
  mapM (sample_of date_trunc (trunc p))
       (filter (λ r, stat_where p r = true) table) = Some samples →
  s ∈ samples →
  s_reading s ∈ table ∧ stat_where p (s_reading s) = true ∧
  date_trunc (trunc p) (r_timestamp (s_reading s)) = Some (s_bucket s).
Proof.
  intros Hm%mapM_Some_1 [i Hi]%list_elem_of_lookup.
  destruct (Forall2_lookup_r _ _ _ _ _ Hm Hi) as (r & Hr & Hs).
  apply sample_of_reading in Hs as [-> Hb].
  apply list_elem_of_lookup_2, list_elem_of_filter in Hr as [? ?]. done.
Qed.

Lemma stat_where_valid p r :
  stat_where p r = true → is_valid_numeric (r_value r) = true.
Proof.
  unfold stat_where. intros Hw.
  repeat (apply andb_true_iff in Hw as [Hw ?]). done.
Qed.

(** What holds of every row of a query that succeeds. *)
Lemma stat_query_bucket p table buckets b :
  stat_query date_trunc p table = Ok buckets →
  b ∈ buckets →
  (1 ≤ sample_count b)%nat ∧
  (∃ s e, start_datetime b = Some s ∧ end_datetime b = Some e ∧ (s ≤ e)%Z) ∧
  (∃ r, r ∈ table ∧ stat_where p r = true ∧
        date_trunc (trunc p) (r_timestamp r) = Some (time_bucket b) ∧
        r_value_type r = bucket_value_type b ∧ r_city r = city_name b).
Proof.
  unfold stat_query. case_bool_decide; [done|].
  destruct (mapM _ _) as [samples|] eqn:Hm; [|done].
  intros [= <-] ([[[tb vt] c] g] & -> & Hg)%list_elem_of_fmap.
  pose proof (group_by_nonempty _ _ _ _ Hg) as Hne.
  simpl. split_and!.
  - destruct g; [done|]. simpl. lia.
  - apply aggregate_min_le_max. by destruct g.
  - destruct g as [|s g]; [done|].
    destruct (group_by_member _ _ _ _ s Hg) as [Hs Hk]; [left|].
    destruct (samples_admitted _ _ _ _ Hm Hs) as (Hin & Hw & Hb).
    unfold stat_group_key in Hk. injection Hk as <- <- <-.
    exists (s_reading s). done.
Qed.

(** C4. Every bucket the aggregation emits was computed from at least one
    sample and starts no later than it ends; it stands for a reading of
    its time bucket, value type and city whose text passes the numeric
    filter.  So a group in which no reading passes the filter has no
    bucket at all. *)
Theorem emitted_buckets_have_samples (rq : request) (w : world)
    (buckets : list AggregateBucket) :
  (get_queryset date_trunc rq w).1 = Ok buckets →
  (∀ b, b ∈ buckets →
     (1 ≤ sample_count b)%nat ∧
     (∃ s e, start_datetime b = Some s ∧ end_datetime b = Some e ∧ (s ≤ e)%Z) ∧
     (∃ r, r ∈ readings w ∧ is_valid_numeric (r_value r) = true ∧
           date_trunc (default "day" (avg rq)) (r_timestamp r)
             = Some (time_bucket b) ∧
           r_value_type r = bucket_value_type b ∧ r_city r = city_name b)) ∧
  (∀ tb vt c,
     (∀ r, r ∈ readings w →
           date_trunc (default "day" (avg rq)) (r_timestamp r) = Some tb →
           r_value_type r = vt → r_city r = c →
           is_valid_numeric (r_value r) = false) →
     ∀ b, b ∈ buckets →
          ¬ (time_bucket b = tb ∧ bucket_value_type b = vt ∧ city_name b = c)).
Proof.
  unfold get_queryset. intros Hq.
  destruct (prepare rq (now w)) as [p|e] eqn:Hp; [simpl in Hq|done].
  assert (Hunit : trunc p = default "day" (avg rq)).
  { unfold prepare in Hp.
    destruct (check_dates _ _) as [[]|]; [simpl in Hp|done].
    destruct (select_value_types _ _); [simpl in Hp|done].
    destruct (resolve_window _ _ _) as [[??]|]; [simpl in Hp|done].
    by injection Hp as <-. }
  assert (Hall : ∀ b, b ∈ buckets →
     (1 ≤ sample_count b)%nat ∧
     (∃ s e, start_datetime b = Some s ∧ end_datetime b = Some e ∧ (s ≤ e)%Z) ∧
     (∃ r, r ∈ readings w ∧ is_valid_numeric (r_value r) = true ∧
           date_trunc (default "day" (avg rq)) (r_timestamp r)
             = Some (time_bucket b) ∧
           r_value_type r = bucket_value_type b ∧ r_city r = city_name b)).
  { intros b Hb.
    destruct (stat_query_bucket _ _ _ _ Hq Hb) as (Hc & Ht & r & Hr & Hw & Hd & Hvt & Hcity).
    rewrite Hunit in Hd. split_and!; [done..|].
    exists r. split_and!; [done| |done..]. by eapply stat_where_valid. }
  split; [done|].
  intros tb vt c Hnone b Hb (<- & <- & <-).
  destruct (Hall b Hb) as (_ & _ & r & Hr & Hv & Hd & Hvt & Hc).
  specialize (Hnone r Hr Hd Hvt Hc). congruence.
Qed.

End Buckets.

(** ** Dictionaries *)

Section Dictionaries.
Context {V : Type}.
Implicit Types d : pydict V.

Lemma dict_get_set_eq k v d : dict_get k (dict_set k v d) = Some v.
Proof.
  induction d as [|[k' v'] d IH]; simpl.
  - by rewrite String.eqb_refl.
  - destruct (String.eqb_spec k k') as [->|Hne]; simpl.
    + by rewrite String.eqb_refl.
    + apply String.eqb_neq in Hne. by rewrite Hne.
Qed.

Lemma dict_get_set_ne k k' v d :
  k ≠ k' → dict_get k' (dict_set k v d) = dict_get k' d.
Proof.
  intros Hne. induction d as [|[k'' v''] d IH]; simpl.
  - apply not_eq_sym, String.eqb_neq in Hne. by rewrite Hne.
  - destruct (String.eqb_spec k k'') as [->|Hne']; simpl; [|by rewrite IH].
    apply not_eq_sym, String.eqb_neq in Hne. by rewrite Hne.
Qed.

Lemma dict_set_set k v v0 d : dict_set k v (dict_set k v0 d) = dict_set k v d.
Proof.
  induction d as [|[k' v'] d IH]; simpl.
  - by rewrite String.eqb_refl.
  - destruct (String.eqb_spec k k') as [->|Hne]; simpl.
    + by rewrite String.eqb_refl.
    + apply String.eqb_neq in Hne. by rewrite Hne, IH.
Qed.

Lemma dict_get_elem k v d : dict_get k d = Some v → (k, v) ∈ d.
Proof.
  induction d as [|[k' v'] d IH]; simpl; [done|].
  destruct (String.eqb_spec k k') as [->|Hne].
  - intros [= ->]. left.
  - intros Hg. right. by apply IH.
Qed.

Lemma dict_set_elem k v d k' v' :
  (k', v') ∈ dict_set k v d → (k', v') ∈ d ∨ (k', v') = (k, v).
Proof.
  induction d as [|[k'' v''] d IH]; simpl.
  - intros ->%list_elem_of_singleton. by right.
  - destruct (String.eqb_spec k k'') as [->|Hne].
    + intros [->|Hin]%elem_of_cons; [by right|]. left. by right.
    + intros [->|Hin]%elem_of_cons; [left; left|].
      destruct (IH Hin) as [?|?]; [left; by right|by right].
Qed.

End Dictionaries.

(** ** The result shaper *)

Section ShaperLookup.
Context {V : Type}.
Implicit Types (results : pydict (pydict (@entry V))).

(** The first dictionary of the answer that names a city is the one
    stored under that city. *)
Lemma head_is_city results city :
  (∀ k of_city, (k, of_city) ∈ results →
     dict_get "city_name" of_city = Some (EStr k)) →
  head (filter (λ d, is_city city d = true) (snd <$> results))
    = dict_get city results.
Proof.
  induction results as [|[k d] results IH]; intros Ha; [done|].
  rewrite fmap_cons, filter_cons. simpl.
  assert (Hd : is_city city d = String.eqb k city).
  { unfold is_city. rewrite (Ha k d) by left. done. }
  rewrite Hd, (String.eqb_sym city k).
  destruct (String.eqb k city) eqn:E.
  - rewrite decide_True by done. done.
  - rewrite decide_False by done. apply IH. intros ? ? ?. apply Ha. by right.
Qed.

End ShaperLookup.

Section ShaperFacts.
Context {V : Type}.
Variable from_date : option string.
Implicit Types (ds : @data_stat V) (results : pydict (pydict (@entry V))).
#[local] Arguments dict_get : simpl never.
#[local] Arguments dict_set : simpl never.

Lemma dict_update_summary (d : pydict V) ds :
  d = [] ∨ (∃ ds', d = summary ds') → dict_update d (summary ds) = summary ds.
Proof. by intros [->|[ds' ->]]. Qed.

Lemma shaped_entry_None (rows : list (@data_stat V)) :
  shaped_entry from_date rows = None → rows = [].
Proof. by destruct rows. Qed.

(** Including one more row turns the entry of the rows seen into the entry
    of the rows seen and the new one. *)
Lemma include_result_shaped (rows : list (@data_stat V)) ds :
  ∃ values,
    include_result from_date
      (default (empty_entry from_date) (shaped_entry from_date rows))
      (summary ds) = Ok values ∧
    shaped_entry from_date (rows ++ [ds]) = Some values.
Proof.
  unfold include_result, empty_entry, shaped_entry.
  destruct rows as [|r rows]; simpl.
  - destruct (truthy from_date); simpl; eauto.
  - destruct (truthy from_date); simpl.
    + eexists. split; [done|]. by rewrite fmap_app.
    + eexists. split; [done|].
      change (r :: rows ++ [ds]) with ((r :: rows) ++ [ds]).
      rewrite last_snoc. simpl. f_equal. f_equal.
      destruct (last (r :: rows)) as [x|] eqn:E; simpl; [done|].
      by apply last_None in E.
Qed.

Lemma rows_of_snoc city value_type (seen : list (@data_stat V)) ds :
  rows_of city value_type (seen ++ [ds]) =
  rows_of city value_type seen ++
    (if decide (ds_city_name ds = city ∧ ds_value_type ds = value_type)
     then [ds] else []).
Proof.
  unfold rows_of. by rewrite filter_app.
Qed.

Lemma shape_step_result results ds seen :
  shaped from_date seen results →
  ds_value_type ds ≠ "city_name" →
  ∃ values,
    shaped_entry from_date
      (rows_of (ds_city_name ds) (ds_value_type ds) seen ++ [ds]) = Some values ∧
    shape_step from_date results ds =
      Ok (dict_set (ds_city_name ds)
            (dict_set (ds_value_type ds) values
               (default [("city_name", EStr (ds_city_name ds))]
                  (dict_get (ds_city_name ds) results)))
            results).
Proof.
  intros [Ha Hb] Hvt. unfold shape_step.
  set (city := ds_city_name ds). set (vt := ds_value_type ds).
  destruct (include_result_shaped (rows_of city vt seen) ds)
    as (values & Hinc & Hval).
  exists values. split; [done|].
  specialize (Hb city vt Hvt).
  destruct (dict_get city results) as [of_city|] eqn:Hcity; simpl in *.
  - rewrite Hcity. simpl. rewrite Hb.
    destruct (shaped_entry from_date (rows_of city vt seen)) as [old|] eqn:Hold;
      simpl in *.
    + rewrite Hb. simpl. by rewrite Hinc.
    + rewrite dict_get_set_eq. simpl. rewrite Hinc. simpl.
      by rewrite dict_set_set.
  - symmetry in Hb. rewrite Hb in Hinc. simpl in Hinc.
    rewrite dict_get_set_eq. simpl. rewrite dict_get_set_eq. simpl.
    rewrite dict_get_set_eq. simpl. rewrite Hinc. simpl.
    by rewrite !dict_set_set.
Qed.

Lemma shape_step_shaped results ds seen :
  shaped from_date seen results →
  ds_value_type ds ≠ "city_name" →
  ∃ results',
    shape_step from_date results ds = Ok results' ∧
    shaped from_date (seen ++ [ds]) results'.
Proof.
  intros Hinv Hvt.
  destruct (shape_step_result _ _ _ Hinv Hvt) as (values & Hval & ->).
  destruct Hinv as [Ha Hb]. eexists. split; [done|].
  set (city := ds_city_name ds) in *. set (vt := ds_value_type ds) in *.
  set (of_city := default [("city_name", EStr city)] (dict_get city results)).
  assert (Hname : dict_get "city_name" of_city = Some (EStr city)).
  { unfold of_city. destruct (dict_get city results) as [d|] eqn:E; simpl.
    - by apply Ha, dict_get_elem.
    - done. }
  assert (Hold : ∀ vt', vt' ≠ "city_name" →
    dict_get vt' of_city = shaped_entry from_date (rows_of city vt' seen)).
  { intros vt' Hvt'. rewrite <- (Hb city vt' Hvt'). unfold of_city.
    destruct (dict_get city results) as [d|]; simpl; [done|].
    apply String.eqb_neq in Hvt'. unfold dict_get. by rewrite Hvt'. }
  split.
  - intros k d [Hin|[= -> ->]]%dict_set_elem; [by apply Ha|].
    by rewrite dict_get_set_ne.
  - intros city' vt' Hvt'. rewrite rows_of_snoc.
    destruct (decide (city = city')) as [<-|Hc].
    + rewrite dict_get_set_eq. simpl.
      destruct (decide (vt = vt')) as [<-|Hv].
      * rewrite dict_get_set_eq. rewrite decide_True by done. done.
      * rewrite dict_get_set_ne by done. rewrite decide_False by (intros [? ?]; done).
        rewrite app_nil_r. by apply Hold.
    + rewrite dict_get_set_ne by done. rewrite decide_False by (intros [? ?]; done).
      rewrite app_nil_r. by apply Hb.
Qed.

Lemma shape_loop_shaped rest : ∀ results seen,
  shaped from_date seen results →
  (∀ ds, ds ∈ rest → ds_value_type ds ≠ "city_name") →
  ∃ results',
    shape_loop from_date results rest = Ok results' ∧
    shaped from_date (seen ++ rest) results'.
Proof.
  induction rest as [|ds rest IH]; intros results seen Hinv Hvt; simpl.
  - exists results. by rewrite app_nil_r.
  - destruct (shape_step_shaped results ds seen Hinv) as (results1 & -> & Hinv1).
    { apply Hvt. left. }
    simpl. destruct (IH results1 (seen ++ [ds]) Hinv1) as (results' & -> & Hinv').
    { intros ? ?. apply Hvt. by right. }
    exists results'. by rewrite <- app_assoc in Hinv'.
Qed.

Lemma shaped_nil : shaped from_date [] ([] : pydict (pydict (@entry V))).
Proof.
  split; [by intros ? ? ?%elem_of_nil|done].
Qed.

End ShaperFacts.

Section ShaperClaim.
Context {V : Type}.

(** C5. For rows whose value type is a value type (not the key
    [city_name] of a city's dictionary), shaping succeeds.  With a date
    range the entry of a city and value type is the sequence of the
    summaries of its rows in the order met, so two rows give a sequence of
    two; without one it is a single summary, that of the last row met. *)
Theorem shaping_keeps_order_or_last
    (from_date next_link previous_link : option string)
    (data_stats : list (@data_stat V)) :
  (∀ ds, ds ∈ data_stats → ds_value_type ds ≠ "city_name") →
  ∃ p,
    get_paginated_response from_date next_link previous_link data_stats = Ok p ∧
    (∀ city value_type, value_type ≠ "city_name" →
       lookup_entry city value_type p
         = shaped_entry from_date (rows_of city value_type data_stats)) ∧
    (∀ city value_type r1 r2,
       rows_of city value_type data_stats = [r1; r2] →
       lookup_entry city value_type p
         = Some (if truthy from_date
                 then EList [summary r1; summary r2]
                 else EDict (summary r2))).
Proof.
  intros Hvt.
  destruct (shape_loop_shaped from_date data_stats [] [] (shaped_nil from_date) Hvt)
    as (results & Hloop & [Ha Hb]).
  simpl in Hb.
  unfold get_paginated_response. rewrite Hloop. simpl.
  eexists. split; [done|].
  assert (Hlook : ∀ city value_type, value_type ≠ "city_name" →
    lookup_entry city value_type
      {| next := next_link; previous := previous_link;
         count := length results.*1; results := results.*2 |}
    = shaped_entry from_date (rows_of city value_type data_stats)).
  { intros city vt Hne. unfold lookup_entry. simpl.
    rewrite (head_is_city results city Ha). by apply Hb. }
  split; [done|].
  intros city vt r1 r2 Hrows.
  assert (Hne : vt ≠ "city_name").
  { assert (Hin : r1 ∈ rows_of city vt data_stats) by (rewrite Hrows; left).
    apply list_elem_of_filter in Hin as [[_ <-] Hin]. by apply Hvt. }
  rewrite (Hlook city vt Hne), Hrows. done.
Qed.

End ShaperClaim.

(** C5 on the two example rows, with a date range. *)
Lemma shaping_keeps_order_or_last_witness :
  (∀ ds, ds ∈ [first_row; second_row] → ds_value_type ds ≠ "city_name") ∧
  rows_of "Nairobi" "P1" [first_row; second_row] = [first_row; second_row] ∧
  ∃ p,
    get_paginated_response (Some "2023-01-01") None None
      [first_row; second_row] = Ok p ∧
    lookup_entry "Nairobi" "P1" p
      = Some (EList [summary first_row; summary second_row]).
Proof.
  assert (H : ∀ ds, ds ∈ [first_row; second_row] →
                    ds_value_type ds ≠ "city_name").
  { intros ds [->|[->|[]%elem_of_nil]%elem_of_cons]%elem_of_cons; discriminate. }
  split; [exact H|]. split; [reflexivity|].
  destruct (shaping_keeps_order_or_last (Some "2023-01-01") None None
              [first_row; second_row] H) as (p & Hp & _ & Htwo).
  exists p. split; [exact Hp|].
  exact (Htwo "Nairobi" "P1" first_row second_row eq_refl).
Defined.

(** The answers for the two example rows, with and without a date range. *)
Example shaped_with_range :
  get_paginated_response (Some "2023-01-01") None None [first_row; second_row]
  = Ok {| next := None; previous := None; count := 1;
          results := [[("city_name", EStr "Nairobi");
                       ("P1", EList [summary first_row; summary second_row])]] |}.
Proof. reflexivity. Qed.

Example shaped_without_range :
  get_paginated_response None None None [first_row; second_row]
  = Ok {| next := None; previous := None; count := 1;
          results := [[("city_name", EStr "Nairobi");
                       ("P1", EDict (summary second_row))]] |}.
Proof. reflexivity. Qed.

(** ** The bounds of the window *)

Section Window.
Context {F : Type} `{FloatOps F}.
Variable date_trunc : string → Z → option Z.

(** Both bounds of the window of the statistics query are inclusive. *)
Lemma stat_where_window p r :
  stat_where p r = true →
  (from_date p ≤ r_timestamp r ≤ to_date p)%Z.
Proof.
  unfold stat_where. intros Hw.
  apply andb_true_iff in Hw as [Hw Hto].
  apply andb_true_iff in Hw as [_ Hfrom]. lia.
Qed.

(** A reading stamped with the end of the window passes [WHERE] when the
    other conditions hold. *)
Lemma stat_where_at_end p r :
  r_value_type r ∈ filter_value_types p →
  is_valid_numeric (r_value r) = true →
  city_names p = [] →
  (from_date p ≤ to_date p)%Z →
  r_timestamp r = to_date p →
  stat_where p r = true.
Proof.
  intros Hvt Hnum Hcity Hle Hts. unfold stat_where.
  rewrite Hnum, Hcity, Hts, bool_decide_eq_true_2 by done. simpl. lia.
Qed.

End Window.

(** C2 on the example data: the window of [january_request] ends at
    2023-01-04T00:00Z, and the reading stamped with exactly that instant
    is aggregated, in a bucket of January 4th. *)
Theorem reading_at_window_end_is_aggregated :
  prepare january_request example_now = Ok january_params ∧
  to_date january_params = datetime 2023 1 4 0 0 0 ∧
  reading_at "P1" "7" (datetime 2023 1 4 0 0 0) ∈ example_readings ∧
  stat_where january_params (reading_at "P1" "7" (datetime 2023 1 4 0 0 0))
    = true ∧
  (get_queryset utc_date_trunc january_request example_world).1
    = Ok [january_second_bucket; january_fourth_bucket].
Proof.
  split_and!; [reflexivity|reflexivity|by repeat constructor|reflexivity|].
  vm_compute. reflexivity.
Qed.

(** C4 on the two buckets of the example. *)
Lemma emitted_buckets_have_samples_witness :
  (get_queryset utc_date_trunc january_request example_world).1
    = Ok [january_second_bucket; january_fourth_bucket] ∧
  ∀ b, b ∈ [january_second_bucket; january_fourth_bucket] →
    (1 ≤ sample_count b)%nat ∧
    (∃ s e, start_datetime b = Some s ∧ end_datetime b = Some e ∧ (s ≤ e)%Z) ∧
    (∃ r, r ∈ readings example_world ∧ is_valid_numeric (r_value r) = true ∧
          utc_date_trunc (default "day" (avg january_request)) (r_timestamp r)
            = Some (time_bucket b) ∧
          r_value_type r = bucket_value_type b ∧ r_city r = city_name b).
Proof.
  assert (E : (get_queryset utc_date_trunc january_request example_world).1
              = Ok [january_second_bucket; january_fourth_bucket])
    by (vm_compute; reflexivity).
  split; [exact E|].
  exact (proj1 (emitted_buckets_have_samples utc_date_trunc january_request
                  example_world _ E)).
Defined.

(** ** The fleet status view *)

Section FleetFacts.
Context {F : Type} `{FloatOps F}.
Variable slugify : string → string.

Lemma current_node_without_sensors db la :
  (∀ n, n ∈ db_nodes db → node_id n = la_node_id la → node_sensors n = []) →
  current_node db la = Raise DoesNotExist.
Proof.
  intros Hnone. unfold current_node.
  destruct (filter _ (db_nodes db)) as [|n l] eqn:E; [done|].
  assert (Hin : n ∈ filter (λ n, node_id n = la_node_id la ∧ node_sensors n ≠ [])
                     (db_nodes db)) by (rewrite E; left).
  apply list_elem_of_filter in Hin as [[Hid Hs] Hin].
  by specialize (Hnone n Hin Hid).
Qed.

Lemma current_node_has_sensors db la node :
  current_node db la = Ok node →
  node ∈ db_nodes db ∧ node_id node = la_node_id la ∧ node_sensors node ≠ [].
Proof.
  unfold current_node, queryset_get.
  destruct (filter _ (db_nodes db)) as [|n [|??]] eqn:E; [done| |done].
  intros [= ->].
  assert (Hin : node ∈ filter
    (λ n, node_id n = la_node_id la ∧ node_sensors n ≠ []) (db_nodes db))
    by (rewrite E; left).
  apply list_elem_of_filter in Hin as [[Hid Hs] Hin]. done.
Qed.

(** One snapshot that raises makes the whole loop raise. *)
Lemma list_loop_raises db snapshots la e : ∀ nodes,
  la ∈ snapshots →
  current_node db la = Raise e →
  ∃ e', list_loop slugify db snapshots nodes = Raise e'.
Proof.
  induction snapshots as [|la' rest IH]; intros nodes Hin Hla.
  - by apply elem_of_nil in Hin.
  - simpl. destruct (node_status slugify db la') as [st|e'] eqn:Hst; simpl.
    + apply elem_of_cons in Hin as [->|Hin]; [|by apply IH].
      unfold node_status in Hst. rewrite Hla in Hst. done.
    + eauto.
Qed.

(** A snapshot whose node has no sensor fails the request: nothing is
    emitted, neither for that node nor for the others. *)
Lemma snapshot_without_sensors_raises db la :
  la ∈ db_last_active db →
  (∀ n, n ∈ db_nodes db → node_id n = la_node_id la → node_sensors n = []) →
  ∃ e, nodes_view_list slugify db = Raise e.
Proof.
  intros Hin Hnone. unfold nodes_view_list.
  destruct (list_loop_raises db (db_last_active db) la DoesNotExist [] Hin)
    as [e ->]; [by apply current_node_without_sensors|].
  eauto.
Qed.

Lemma node_status_has_sensors db la st :
  node_status slugify db la = Ok st → has_sensors db st.
Proof.
  unfold node_status.
  destruct (current_node db la) as [node|] eqn:Hn; [simpl|done].
  intros [= <-]. apply current_node_has_sensors in Hn as (? & ? & ?).
  exists node. done.
Qed.

Lemma list_loop_has_sensors db snapshots : ∀ nodes out,
  Forall (has_sensors db) nodes →
  list_loop slugify db snapshots nodes = Ok out →
  Forall (has_sensors db) out.
Proof.
  induction snapshots as [|la rest IH]; intros nodes out Hall; simpl.
  - by intros [= <-].
  - destruct (node_status slugify db la) as [st|] eqn:Hst; [simpl|done].
    apply IH. apply Forall_app. split; [done|].
    constructor; [|done]. by eapply node_status_has_sensors.
Qed.

Lemma render_has_sensors db
    (l : list (NodeStatus (outcome (list (@NodeStat F))))) : ∀ out,
  Forall (has_sensors db) l →
  render l = Ok out →
  Forall (has_sensors db) out.
Proof.
  induction l as [|st l IH]; intros out Hall; simpl.
  - intros [= <-]. constructor.
  - apply Forall_cons in Hall as [Hst Hall].
    unfold render_status at 1.
    destruct (stats _ st) as [s|]; [simpl|done].
    destruct (render l) as [rs|]; [simpl|done].
    intros [= <-]. constructor; [|by apply IH].
    destruct Hst as (n & ? & ? & ?). exists n. done.
Qed.

(** Every node of an answer has a sensor. *)
Lemma answered_nodes_have_sensors db out st :
  nodes_view_list slugify db = Ok out →
  st ∈ out →
  has_sensors db st.
Proof.
  unfold nodes_view_list.
  destruct (list_loop slugify db (db_last_active db) []) as [l|] eqn:Hl;
    [simpl|done].
  intros Hr Hin.
  apply list_loop_has_sensors in Hl; [|constructor].
  eapply render_has_sensors in Hr; [|done].
  by eapply Forall_forall in Hr.
Qed.

End FleetFacts.

(** C9 on the example fleet: the snapshot of the node without sensors
    makes the view raise [DoesNotExist], so the request fails and the node
    that has a sensor is not emitted either; without that snapshot the same
    node is emitted. *)
Theorem snapshot_without_sensors_fails_the_request :
  node_sensors node_without_sensors = [] ∧
  node_sensors node_with_sensor = [7%Z] ∧
  nodes_view_list (F := Q) plain_slug example_fleet = Raise DoesNotExist ∧
  http_status (nodes_view_list (F := Q) plain_slug example_fleet) = 500%Z ∧
  status_node_id _ <$> default [] (match
      nodes_view_list (F := Q) plain_slug example_fleet_with_sensors with
    | Ok out => Some out
    | Raise _ => None
    end) = [2%Z].
Proof. by vm_compute. Qed.

(** * Further properties of the views *)

(** ** The helpers of the day and the windows without [to] *)

Section Days.
Local Open Scope Z_scope.

Lemma replace_midnight_bounds t :
  replace_midnight t mod DAY = 0 ∧
  replace_midnight t ≤ t < replace_midnight t + hours 24.
Proof.
  unfold replace_midnight, hours, DAY. Z.div_mod_to_equations. lia.
Qed.

(** Lines 33-38.  [beginning_of_today] is the last midnight that is not
    after the clock; [end_of_today] is 24 hours later, after the clock,
    and leaves the range of [datetime] on the last day of the calendar. *)
Theorem today_bounds (now : Z) :
  beginning_of_today now mod DAY = 0 ∧
  beginning_of_today now ≤ now < beginning_of_today now + hours 24 ∧
  (0 < toordinal now < MAXORDINAL →
     end_of_today now = Ok (beginning_of_today now + hours 24)) ∧
  (toordinal now = MAXORDINAL → end_of_today now = Raise OverflowError).
Proof.
  unfold end_of_today, beginning_of_today, replace_midnight, datetime_add.
  assert (Hord : toordinal (now - now mod DAY + hours 24) = toordinal now + 1).
  { unfold toordinal, hours, DAY. Z.div_mod_to_equations. lia. }
  rewrite Hord. split_and!; try apply replace_midnight_bounds.
  - intros [Hlo Hhi].
    destruct (0 <? toordinal now + 1) eqn:E1; [|lia].
    destruct (toordinal now + 1 <=? MAXORDINAL) eqn:E2; [done|lia].
  - intros ->. done.
Qed.

(** Lines 138-140.  Without [from] and [to] the window is the 24 hours up
    to the clock, provided the clock is a [datetime] after the first day
    of the calendar. *)
Theorem rolling_window (from_str to_str : option string) (now : Z) :
  truthy from_str = false →
  truthy to_str = false →
  1 < toordinal now ≤ MAXORDINAL →
  resolve from_str to_str now = Ok (now - hours 24, now).
Proof.
  intros Hf Ht Hnow. unfold resolve, check_dates, resolve_window.
  rewrite Hf, Ht. simpl. unfold datetime_sub, datetime_add.
  assert (Hord : toordinal (now + - hours 24) = toordinal now - 1).
  { unfold toordinal, hours, DAY. Z.div_mod_to_equations. lia. }
  rewrite Hord.
  destruct (0 <? toordinal now - 1) eqn:E1; [|lia].
  destruct (toordinal now - 1 <=? MAXORDINAL) eqn:E2; [|lia].
  simpl. done.
Qed.

(** Lines 141-145.  With a valid [from] and no [to] the window runs from
    midnight of the [from] day to the last midnight not after the clock,
    whatever the order of the two. *)
Theorem window_from_only (from_str : string) (to_str : option string)
    (start now : Z) :
  strptime from_str = Ok start →
  truthy to_str = false →
  resolve (Some from_str) to_str now = Ok (start, beginning_of_today now) ∧
  beginning_of_today now ≤ now < beginning_of_today now + hours 24.
Proof.
  intros Hf Ht. split; [|apply replace_midnight_bounds].
  unfold resolve, check_dates, resolve_window.
  rewrite (strptime_truthy _ _ Hf), Ht. simpl.
  rewrite (validate_date_parses _ _ _ Hf). simpl.
  unfold beginning_of_day. by rewrite Hf.
Qed.

End Days.

(** ** The end of a day *)

Section NextDay.
Local Open Scope Z_scope.

Lemma month_cases month :
  1 ≤ month ≤ 12 →
  month = 1 ∨ month = 2 ∨ month = 3 ∨ month = 4 ∨ month = 5 ∨ month = 6 ∨
  month = 7 ∨ month = 8 ∨ month = 9 ∨ month = 10 ∨ month = 11 ∨ month = 12.
Proof. lia. Qed.

Lemma check_date_fields_bounds year month day :
  check_date_fields year month day = true →
  1 ≤ year ≤ 9999 ∧ 1 ≤ month ≤ 12 ∧ 1 ≤ day ≤ days_in_month year month.
Proof.
  unfold check_date_fields, MINYEAR, MAXYEAR. intros Hc.
  repeat (apply andb_true_iff in Hc as [Hc ?]). lia.
Qed.

(** A year has 365 days, or 366 when it is a leap year. *)
Lemma days_before_next_year year :
  days_before_year (year + 1) =
  days_before_year year + (if is_leap year then 366 else 365).
Proof.
  unfold days_before_year, is_leap.
  replace (year + 1 - 1) with year by lia.
  destruct (Z.eqb_spec (year mod 4) 0) as [H4|H4];
    destruct (Z.eqb_spec (year mod 100) 0) as [H100|H100];
    destruct (Z.eqb_spec (year mod 400) 0) as [H400|H400]; simpl;
    Z.div_mod_to_equations; lia.
Qed.

(** The months of a year follow one another without a gap. *)
Lemma days_before_next_month year month :
  1 ≤ month < 12 →
  days_before_month year (month + 1) =
  days_before_month year month + days_in_month year month.
Proof.
  intros Hm. unfold days_before_month, days_in_month.
  assert (Hc : month = 1 ∨ month = 2 ∨ month = 3 ∨ month = 4 ∨ month = 5 ∨
               month = 6 ∨ month = 7 ∨ month = 8 ∨ month = 9 ∨ month = 10 ∨
               month = 11) by lia.
  destruct (is_leap year);
    repeat (destruct Hc as [->|Hc]; [done|]); by subst.
Qed.

Lemma days_in_month_bounds year month :
  1 ≤ month ≤ 12 → 28 ≤ days_in_month year month ≤ 31.
Proof.
  intros Hc%month_cases. unfold days_in_month.
  destruct (is_leap year);
    repeat (destruct Hc as [->|Hc]; [simpl; lia|]); subst; simpl; lia.
Qed.

(** The day of the year is at most the length of the year, which only
    December 31st reaches. *)
Lemma day_of_year_bound year month day :
  1 ≤ month ≤ 12 → 1 ≤ day ≤ days_in_month year month →
  days_before_month year month + day ≤ (if is_leap year then 366 else 365) ∧
  (days_before_month year month + day = (if is_leap year then 366 else 365) →
   month = 12 ∧ day = 31).
Proof.
  intros Hc%month_cases. unfold days_before_month, days_in_month.
  destruct (is_leap year);
    repeat (destruct Hc as [->|Hc]; [simpl; lia|]); subst; simpl; lia.
Qed.

Lemma ymd2ord_next_day year month day :
  check_date_fields year month day = true →
  let '(y, m, d) := next_day year month day in
  ymd2ord y m d = ymd2ord year month day + 1 ∧
  1 ≤ m ≤ 12 ∧ 1 ≤ d ≤ days_in_month y m.
Proof.
  intros (Hy & Hm & Hd)%check_date_fields_bounds. unfold next_day.
  destruct (Z.ltb_spec day (days_in_month year month)) as [Hlt|Hge].
  { unfold ymd2ord. lia. }
  assert (day = days_in_month year month) as -> by lia.
  destruct (Z.ltb_spec month 12) as [Hlt|Hge'].
  - unfold ymd2ord. rewrite days_before_next_month by lia.
    pose proof (days_in_month_bounds year (month + 1)). lia.
  - assert (month = 12) as -> by lia. unfold ymd2ord.
    rewrite days_before_next_year.
    pose proof (days_in_month_bounds (year + 1) 1).
    unfold days_before_month, days_in_month in *. simpl in *.
    destruct (is_leap year); simpl; lia.
Qed.

(** Only the last day of the calendar has the last ordinal. *)
Lemma ymd2ord_below_max year month day :
  check_date_fields year month day = true →
  (year, month, day) ≠ (9999, 12, 31) →
  ymd2ord year month day < MAXORDINAL.
Proof.
  intros (Hy & Hm & Hd)%check_date_fields_bounds Hlast.
  destruct (day_of_year_bound year month day Hm Hd) as [Hle Heq].
  unfold ymd2ord, MAXORDINAL.
  destruct (decide (year = 9999)) as [->|Hne].
  - change (is_leap 9999) with false in *. cbv iota in Hle, Heq.
    change (days_before_year 9999) with 3651694.
    assert (days_before_month 9999 month + day ≠ 365); [|lia].
    intros [-> ->]%Heq. done.
  - assert (days_before_year year ≤ 3651329).
    { unfold days_before_year. Z.div_mod_to_equations. lia. }
    destruct (is_leap year); lia.
Qed.

Lemma datetime_midnight year month day :
  datetime year month day 0 0 0 = ymd2ord year month day * DAY.
Proof. unfold datetime, hours, minutes. lia. Qed.

Lemma datetime_add_day ord :
  1 ≤ ord < MAXORDINAL →
  datetime_add (ord * DAY) (hours 24) = Ok ((ord + 1) * DAY).
Proof.
  intros Hord. unfold datetime_add.
  assert (E : toordinal (ord * DAY + hours 24) = ord + 1).
  { unfold toordinal, hours, DAY. Z.div_mod_to_equations. lia. }
  rewrite E.
  destruct (0 <? ord + 1) eqn:E1; [|lia].
  destruct (ord + 1 <=? MAXORDINAL) eqn:E2; [|lia].
  simpl. f_equal. unfold hours, DAY. lia.
Qed.

(** Lines 41-46.  [end_of_day] is midnight of the next day of the
    calendar, across the ends of months, leap days and the ends of years;
    only the last day of the calendar has no next day. *)
Theorem end_of_day_is_next_midnight (to_date : string) (year month day : Z) :
  check_date_fields year month day = true →
  strptime to_date = Ok (datetime year month day 0 0 0) →
  (year, month, day) ≠ (9999, 12, 31) →
  let '(y, m, d) := next_day year month day in
  end_of_day to_date = Ok (datetime y m d 0 0 0) ∧
  check_date_fields y m d = true.
Proof.
  intros Hc Hs Hlast.
  pose proof (ymd2ord_next_day _ _ _ Hc) as Hnext.
  pose proof (ymd2ord_below_max _ _ _ Hc Hlast) as Hmax.
  pose proof (check_date_fields_ordinal _ _ _ Hc) as Hmin.
  pose proof (check_date_fields_bounds _ _ _ Hc) as (Hy & Hm & Hd).
  assert (Hyear : ∀ y m d, next_day year month day = (y, m, d) → 1 ≤ y ≤ 9999).
  { unfold next_day. intros y m d.
    destruct (Z.ltb_spec day (days_in_month year month)); [intros [= <- _ _]; lia|].
    destruct (Z.ltb_spec month 12); intros [= <- _ _]; [lia|].
    assert (month = 12) as -> by lia.
    assert (day = 31) as -> by (unfold days_in_month in *; simpl in *; lia).
    assert (year ≠ 9999) by (intros ->; done). lia. }
  destruct (next_day year month day) as [[y m] d].
  destruct Hnext as (Hord & Hm' & Hd'). specialize (Hyear y m d eq_refl).
  split.
  - unfold end_of_day, beginning_of_day. rewrite Hs. simpl.
    rewrite !datetime_midnight, Hord. by apply datetime_add_day.
  - unfold check_date_fields, MINYEAR, MAXYEAR.
    repeat (apply andb_true_iff; split); apply Z.leb_le; lia.
Qed.

End NextDay.

(** ** The outcomes of the statistics view *)

Section Outcomes.
Context {F : Type} `{FloatOps F}.
Variable date_trunc : string → Z → option Z.

Lemma validate_date_ok s error :
  validate_date s error = Ok () → ∃ t, strptime s = Ok t.
Proof.
  unfold validate_date. destruct (strptime s) as [t|e] eqn:E; [eauto|].
  apply strptime_raises in E as ->. done.
Qed.

(** Dates that passed the checks parse. *)
Lemma check_dates_ok from_date to_date :
  check_dates from_date to_date = Ok () →
  (truthy from_date = true → ∃ t, strptime (text from_date) = Ok t) ∧
  (truthy to_date = true →
     truthy from_date = true ∧ ∃ t, strptime (text to_date) = Ok t).
Proof.
  unfold check_dates. intros E.
  destruct (truthy to_date) eqn:Ht, (truthy from_date) eqn:Hf; simpl in E;
    try done.
  - destruct (validate_date (text from_date) _) as [[]|] eqn:E1; [|done].
    simpl in E. apply validate_date_ok in E1, E. done.
  - destruct (validate_date (text from_date) _) as [[]|] eqn:E1; [|done].
    apply validate_date_ok in E1. done.
Qed.

(** After the checks the window can only fail by leaving the range of
    [datetime]. *)
Lemma resolve_window_raises from_date to_date now e :
  check_dates from_date to_date = Ok () →
  resolve_window from_date to_date now = Raise e →
  e = OverflowError.
Proof.
  intros [Hfrom Hto]%check_dates_ok. unfold resolve_window.
  unfold datetime_sub, end_of_day, beginning_of_day, datetime_add.
  destruct (truthy from_date) eqn:Hf, (truthy to_date) eqn:Ht; simpl.
  - destruct (Hfrom eq_refl) as [t1 ->]. destruct (Hto eq_refl) as [_ [t2 ->]].
    simpl. case_match; simpl; [done|]. by intros [= <-].
  - destruct (Hfrom eq_refl) as [t1 ->]. done.
  - by destruct (Hto eq_refl) as [? _].
  - case_match; simpl; [done|]. by intros [= <-].
Qed.

Lemma select_value_types_raises sensor_type value_type e :
  select_value_types sensor_type value_type = Raise e →
  e = KeyError sensor_type.
Proof.
  unfold select_value_types.
  destruct (value_types !! sensor_type); [by case_match|]. by intros [= <-].
Qed.

Lemma prepare_raises rq now e :
  prepare rq now = Raise e →
  (∃ f m, e = ValidationError f m) ∨ e = KeyError (sensor_type rq) ∨
  e = OverflowError.
Proof.
  unfold prepare.
  destruct (check_dates (from rq) (to rq)) as [[]|e1] eqn:E1; simpl.
  - destruct (select_value_types _ _) as [tags|e2] eqn:E2; simpl.
    + destruct (resolve_window _ _ _) as [[? ?]|e3] eqn:E3; simpl; [done|].
      intros [= <-]. right. right. by eapply resolve_window_raises.
    + intros [= <-]. right. left. by eapply select_value_types_raises.
  - intros [= <-]. left. by eapply check_dates_raises.
Qed.

Lemma stat_query_raises p table e :
  stat_query date_trunc p table = Raise e →
  e = ProgrammingError ∨ e = DataError.
Proof.
  unfold stat_query. case_bool_decide; [intros [= <-]; by left|].
  case_match; [done|]. intros [= <-]. by right.
Qed.

(** Lines 111-192.  A request that fails before the query leaves the state
    as it was and raises a validation error, the [KeyError] of an unknown
    sensor type, or [OverflowError]; otherwise exactly one query is
    executed, with the prepared parameters, and it returns rows or fails
    with a database error.  The clock and the table are never changed. *)
Theorem get_queryset_outcomes (rq : request) (w : world) :
  match prepare rq (now w) with
  | Raise e =>
      get_queryset date_trunc rq w = (Raise e, w) ∧
      ((∃ f m, e = ValidationError f m) ∨ e = KeyError (sensor_type rq) ∨
       e = OverflowError)
  | Ok p =>
      executed (get_queryset date_trunc rq w).2 = executed w ++ [p] ∧
      now (get_queryset date_trunc rq w).2 = now w ∧
      readings (get_queryset date_trunc rq w).2 = readings w ∧
      ((∃ rows, (get_queryset date_trunc rq w).1 = Ok rows) ∨
       (get_queryset date_trunc rq w).1 = Raise ProgrammingError ∨
       (get_queryset date_trunc rq w).1 = Raise DataError)
  end.
Proof.
  unfold get_queryset.
  destruct (prepare rq (now w)) as [p|e] eqn:Hp.
  - simpl. split_and!; [done..|].
    destruct (stat_query date_trunc p (readings w)) as [rows|e] eqn:Hq.
    + left. eauto.
    + right. apply stat_query_raises in Hq as [->| ->]; [by left|by right].
  - split; [done|]. by eapply prepare_raises.
Qed.

End Outcomes.

(** ** What the buckets are made of *)

Section Partition.
Context {K A : Type} `{EqDecision K}.
Variable key : A → K.

Lemma sum_indicator (k0 : K) (ks : list K) :
  NoDup ks →
  sum_list_with (λ k, if decide (k0 = k) then 1 else 0) ks
    = if decide (k0 ∈ ks) then 1 else 0.
Proof.
  induction 1 as [|k ks Hk Hnd IH]; simpl; [done|].
  rewrite IH. destruct (decide (k0 = k)) as [->|Hne].
  - rewrite decide_False by done. rewrite decide_True by left. done.
  - destruct (decide (k0 ∈ ks)) as [Hin|Hout].
    + rewrite decide_True by (by right). done.
    + rewrite decide_False; [done|]. by intros [?|?]%elem_of_cons.
Qed.

(** The groups of a set of keys that is free of repetitions and holds the
    key of every row share out the rows. *)
Lemma group_sizes (ks : list K) (l : list A) :
  NoDup ks →
  (∀ x, x ∈ l → key x ∈ ks) →
  sum_list_with (λ k, length (filter (λ x, key x = k) l)) ks = length l.
Proof.
  intros Hnd. induction l as [|x l IH]; intros Hks.
  - clear. induction ks as [|k ks IHk]; simpl; [done|]. exact IHk.
  - simpl. rewrite <- IH by (intros ? ?; apply Hks; by right).
    assert (Hx : key x ∈ ks) by (apply Hks; left).
    pose proof (sum_indicator (key x) ks Hnd) as Hone.
    rewrite decide_True in Hone by done.
    rewrite <- Nat.add_1_l, <- Hone. clear.
    induction ks as [|k ks IHk]; simpl; [done|].
    rewrite filter_cons. destruct (decide (key x = k)); simpl; lia.
Qed.

Lemma group_by_keys l : NoDup (fst <$> group_by key l).
Proof.
  unfold group_by. rewrite <- list_fmap_compose.
  rewrite (list_fmap_ext _ id (remove_dups (key <$> l))) by done.
  rewrite list_fmap_id. apply NoDup_remove_dups.
Qed.

Lemma group_by_sizes l :
  sum_list_with (λ g, length g.2) (group_by key l) = length l.
Proof.
  unfold group_by.
  rewrite <- (group_sizes (remove_dups (key <$> l)) l).
  - generalize (remove_dups (key <$> l)). intros ks.
    induction ks as [|k ks IH]; simpl; [done|]. f_equal. exact IH.
  - apply NoDup_remove_dups.
  - intros x Hx. apply elem_of_remove_dups. by apply list_elem_of_fmap_2.
Qed.

End Partition.

Section Extremes2.
Local Open Scope Z_scope.

Lemma fold_left_min_bounds l : ∀ x a b,
  a ≤ x ≤ b → Forall (λ y, a ≤ y ≤ b) l → a ≤ fold_left Z.min l x ≤ b.
Proof.
  induction l as [|y l IH]; intros x a b Hx Hl; simpl; [done|].
  apply Forall_cons in Hl as [Hy Hl]. apply IH; [lia|done].
Qed.

Lemma fold_left_max_bounds l : ∀ x a b,
  a ≤ x ≤ b → Forall (λ y, a ≤ y ≤ b) l → a ≤ fold_left Z.max l x ≤ b.
Proof.
  induction l as [|y l IH]; intros x a b Hx Hl; simpl; [done|].
  apply Forall_cons in Hl as [Hy Hl]. apply IH; [lia|done].
Qed.

End Extremes2.

Section BucketsMore.
Context {F : Type} `{FloatOps F}.
Variable date_trunc : string → Z → option Z.

Lemma bucket_of_key (g : (Z * string * string) * list (@Sample F)) :
  (time_bucket (bucket_of g), bucket_value_type (bucket_of g),
   city_name (bucket_of g)) = g.1 ∧
  sample_count (bucket_of g) = length g.2.
Proof. by destruct g as [[[? ?] ?] ?]. Qed.

(** Lines 152-187.  Every bucket of a request is of a value type the
    request filters on and, when cities are asked for, of one of them; the
    first and last timestamps it reports lie in the window, both bounds
    included. *)
Theorem buckets_respect_the_filters (rq : request) (w : world)
    (p : sql_params) (buckets : list AggregateBucket) (b : AggregateBucket) :
  prepare rq (now w) = Ok p →
  (get_queryset date_trunc rq w).1 = Ok buckets →
  b ∈ buckets →
  bucket_value_type b ∈ filter_value_types p ∧
  (city_names p ≠ [] → city_name b ∈ city_names p) ∧
  ∃ s e, start_datetime b = Some s ∧ end_datetime b = Some e ∧
         (from_date p ≤ s)%Z ∧ (s ≤ e)%Z ∧ (e ≤ to_date p)%Z.
Proof.
  unfold get_queryset. intros -> Hq Hb. simpl in Hq.
  unfold stat_query in Hq. case_bool_decide; [done|].
  destruct (mapM _ _) as [samples|] eqn:Hm; [|done].
  injection Hq as <-.
  apply list_elem_of_fmap in Hb as ([[[tb vt] c] g] & -> & Hg).
  assert (Hmem : ∀ s, s ∈ g →
    stat_where p (s_reading s) = true ∧
    r_value_type (s_reading s) = vt ∧ r_city (s_reading s) = c).
  { intros s Hs. destruct (group_by_member _ _ _ _ s Hg Hs) as [Hin Hk].
    destruct (samples_admitted _ _ _ _ _ Hm Hin) as (_ & Hw & _).
    unfold stat_group_key in Hk. by injection Hk as _ <- <-. }
  pose proof (group_by_nonempty _ _ _ _ Hg) as Hne.
  destruct g as [|s0 g]; [done|]. simpl.
  destruct (Hmem s0) as (Hw0 & <- & <-); [left|].
  split_and!.
  - unfold stat_where in Hw0.
    repeat (apply andb_true_iff in Hw0 as [Hw0 _]).
    by apply bool_decide_eq_true in Hw0.
  - intros Hcities. unfold stat_where in Hw0.
    apply andb_true_iff in Hw0 as [Hw0 _].
    apply andb_true_iff in Hw0 as [Hw0 _].
    apply andb_true_iff in Hw0 as [_ Hw0].
    destruct (city_names p) as [|c0 cs]; [done|]. simpl in Hw0.
    by apply bool_decide_eq_true in Hw0.
  - assert (Hall : Forall (λ y, from_date p ≤ y ≤ to_date p)%Z
                     ((λ s, r_timestamp (s_reading s)) <$> g)).
    { apply Forall_fmap, Forall_forall. intros s Hs. simpl.
      destruct (Hmem s) as (Hw & _); [by right|].
      by apply stat_where_window in Hw. }
    pose proof (stat_where_window _ _ Hw0) as Hin0.
    pose proof (fold_left_min_bounds _ _ _ _ Hin0 Hall) as H1.
    pose proof (fold_left_max_bounds _ _ _ _ Hin0 Hall) as H2.
    pose proof (fold_left_min_le
      ((λ s, r_timestamp (s_reading s)) <$> g) (r_timestamp (s_reading s0)))
      as H3.
    pose proof (fold_left_max_ge
      ((λ s, r_timestamp (s_reading s)) <$> g) (r_timestamp (s_reading s0)))
      as H4.
    eexists _, _. split_and!; [done..| | |].
    + exact (proj1 H1).
    + exact (Z.le_trans _ _ _ H3 H4).
    + exact (proj2 H2).
Qed.

(** Lines 152-187.  The buckets of a query share out the readings that
    pass [WHERE]: no two buckets have the same time bucket, value type and
    city, and their sample counts add up to the number of those
    readings. *)
Theorem buckets_share_out_the_readings (p : sql_params)
    (table : list Reading) (buckets : list AggregateBucket) :
  stat_query date_trunc p table = Ok buckets →
  NoDup ((λ b, (time_bucket b, bucket_value_type b, city_name b)) <$> buckets) ∧
  sum_list_with sample_count buckets
    = length (filter (λ r, stat_where p r = true) table).
Proof.
  unfold stat_query. case_bool_decide; [done|].
  destruct (mapM _ _) as [samples|] eqn:Hm; [|done].
  intros [= <-]. split.
  - rewrite <- list_fmap_compose.
    rewrite (list_fmap_ext _ fst (group_by stat_group_key samples)).
    + apply group_by_keys.
    + intros i g _. exact (proj1 (bucket_of_key g)).
  - rewrite (length_mapM _ _ _ Hm), <- (group_by_sizes stat_group_key samples).
    generalize (group_by stat_group_key samples). intros gs.
    induction gs as [|g gs IH]; simpl; [done|].
    f_equal; [exact (proj2 (bucket_of_key g))|exact IH].
Qed.

End BucketsMore.

Section EmptySelection.
Context {F : Type} `{FloatOps F}.
Variable date_trunc : string → Z → option Z.

(** Lines 129-136 and 168.  When a request names value types and none of
    them, in upper case, is a configured tag in upper case, the tuple after
    [IN] is empty: the query is executed and fails as a syntax error. *)
Theorem unknown_value_types_fail_the_query (rq : request) (w : world)
    (p : sql_params) :
  prepare rq (now w) = Ok p →
  truthy (value_type rq) = true →
  (∀ allowed t, value_types !! sensor_type rq = Some allowed →
     t ∈ split "," (upper (text (value_type rq))) → t ∉ upper <$> allowed) →
  filter_value_types p = [] ∧
  (get_queryset date_trunc rq w).1 = Raise ProgrammingError ∧
  executed (get_queryset date_trunc rq w).2 = executed w ++ [p].
Proof.
  intros Hp Hvt Hnone.
  assert (Hempty : filter_value_types p = []).
  { unfold prepare in Hp.
    destruct (check_dates _ _) as [[]|]; [simpl in Hp|done].
    destruct (select_value_types _ _) as [tags|] eqn:Hsel; [simpl in Hp|done].
    destruct (resolve_window _ _ _) as [[? ?]|]; [simpl in Hp|done].
    injection Hp as <-. simpl.
    unfold select_value_types in Hsel.
    destruct (value_types !! sensor_type rq) as [allowed|] eqn:Hst; [|done].
    destruct (select_value_types_given _ _ _ Hst Hvt) as (tags' & E & Htags).
    unfold select_value_types in E. rewrite Hst in E.
    rewrite E in Hsel. injection Hsel as ->.
    destruct tags as [|t tags]; [done|].
    destruct (proj1 (Htags t)) as [Hasked Hknown]; [left|].
    by destruct (Hnone allowed t eq_refl Hasked). }
  unfold get_queryset. rewrite Hp. simpl. split_and!; [done| |done].
  unfold stat_query. by rewrite bool_decide_eq_true_2.
Qed.

End EmptySelection.

(** ** The answer of the fleet status view *)

Section FleetAnswer.
Context {F : Type} `{FloatOps F}.
Variable slugify : string → string.

Lemma Forall2_compose {A B C} (P : A → B → Prop) (Q : B → C → Prop)
    (R : A → C → Prop) l k m :
  (∀ x y z, P x y → Q y z → R x z) →
  Forall2 P l k → Forall2 Q k m → Forall2 R l m.
Proof.
  intros HR HP. revert m. induction HP as [|x y l k Hxy _ IH]; intros m HQ.
  - inversion HQ. constructor.
  - inversion HQ as [|? z ? m' Hyz HQ']; subst. constructor; eauto.
Qed.

Lemma list_loop_ok db snapshots : ∀ nodes out,
  list_loop slugify db snapshots nodes = Ok out →
  ∃ new, out = nodes ++ new ∧
         Forall2 (λ la st, node_status slugify db la = Ok st) snapshots new.
Proof.
  induction snapshots as [|la rest IH]; intros nodes out; simpl.
  - intros [= <-]. exists []. by rewrite app_nil_r.
  - destruct (node_status slugify db la) as [st|] eqn:Hst; [simpl|done].
    intros (new & -> & Hnew)%IH. exists (st :: new).
    rewrite <- app_assoc. split; [done|]. by constructor.
Qed.

Lemma render_ok (l : list (NodeStatus (outcome (list (@NodeStat F))))) :
  ∀ out, render l = Ok out →
         Forall2 (λ st r, render_status st = Ok r) l out.
Proof.
  induction l as [|st l IH]; intros out; simpl.
  - intros [= <-]. constructor.
  - destruct (render_status st) as [r|] eqn:Hr; [simpl|done].
    destruct (render l) as [rs|] eqn:Hrs; [simpl|done].
    intros [= <-]. constructor; [done|]. by apply IH.
Qed.

Lemma node_status_reports db la st r :
  node_status slugify db la = Ok st →
  render_status st = Ok r →
  reports slugify db la r.
Proof.
  unfold node_status, render_status.
  destruct (current_node db la) as [node|] eqn:Hn; [simpl|done].
  intros [= <-]. simpl.
  destruct (last_data_received_at la) as [last|] eqn:Hlast.
  - destruct (fleet_stats db la last) as [rows|] eqn:Hs; [simpl|done].
    intros [= <-]. unfold reports. rewrite Hlast. simpl.
    split_and!; [done..|]. exists node. split_and!; [done| |done].
    by case_bool_decide.
  - simpl. intros [= <-]. unfold reports. rewrite Hlast. simpl.
    split_and!; [done..|]. exists node. split_and!; [done| |done].
    by case_bool_decide.
Qed.

(** Lines 201-278.  An answer of the fleet view has one element for each
    snapshot, in the order of the snapshots.  The element carries the node
    and the place of the snapshot and its last date; its statistics are
    those of the five minutes before that date, or none without a date;
    the node counts as moved exactly when the place of the snapshot is not
    the place the node is registered at, and then [moved_to] is that
    place. *)
Theorem fleet_answers_each_snapshot (db : database)
    (out : list (NodeStatus (list NodeStat))) :
  nodes_view_list slugify db = Ok out →
  Forall2 (reports slugify db) (db_last_active db) out.
Proof.
  unfold nodes_view_list.
  destruct (list_loop slugify db (db_last_active db) []) as [l|] eqn:Hl;
    [simpl|done].
  intros Hr%render_ok.
  apply list_loop_ok in Hl as (new & -> & Hnew). simpl in Hr.
  eapply Forall2_compose; [|exact Hnew|exact Hr].
  intros la st r. apply node_status_reports.
Qed.

(** Lines 215-242.  Each row of the trailing statistics of a snapshot is
    of a value type other than [timestamp]; its first and last timestamps
    lie between five minutes before the last date and that date, both
    included; and it stands for a reading of the node and the location of
    the snapshot whose text passes the numeric filter.  No two rows are of
    the same value type and sensor. *)
Theorem fleet_stats_rows (db : database) (la : LastActive) (last : Z)
    (rows : list NodeStat) :
  fleet_stats db la last = Ok rows →
  NoDup ((λ row, (ns_value_type row, ns_sensor_id row)) <$> rows) ∧
  ∀ row, row ∈ rows →
    ns_value_type row ≠ "timestamp" ∧
    (∃ s e, ns_start_datetime row = Some s ∧ ns_end_datetime row = Some e ∧
            (last - minutes 5 ≤ s)%Z ∧ (s ≤ e)%Z ∧ (e ≤ last)%Z) ∧
    ∃ r, r ∈ db_readings db ∧
         r_node r = la_node_id la ∧
         r_location r = loc_id (la_location la) ∧
         r_value_type r = ns_value_type row ∧
         r_sensor r = ns_sensor_id row ∧
         fleet_is_valid_numeric (r_value r) = true.
Proof.
  unfold fleet_stats.
  destruct (mapM _ _) as [samples|] eqn:Hm; [|done].
  intros [= <-].
  assert (Hsample : ∀ s, s ∈ samples →
    s.1 ∈ db_readings db ∧ fleet_where la last s.1 = true).
  { intros s [i Hi]%list_elem_of_lookup.
    destruct (Forall2_lookup_r _ _ _ _ _ (mapM_Some_1 _ _ _ Hm) Hi)
      as (r & Hr & Hs).
    unfold fleet_sample in Hs.
    destruct (cast_float (r_value r)); [simpl in Hs|done].
    injection Hs as <-. simpl.
    by apply list_elem_of_lookup_2, list_elem_of_filter in Hr as [? ?]. }
  assert (Hwhere : ∀ r, fleet_where la last r = true →
    r_node r = la_node_id la ∧ r_location r = loc_id (la_location la) ∧
    (last - minutes 5 ≤ r_timestamp r ≤ last)%Z ∧
    r_value_type r ≠ "timestamp" ∧ fleet_is_valid_numeric (r_value r) = true).
  { unfold fleet_where. intros r Hw.
    repeat (apply andb_true_iff in Hw as [Hw ?]).
    apply bool_decide_eq_true in Hw.
    match goal with
    | Hb : bool_decide _ = true |- _ => apply bool_decide_eq_true in Hb
    end.
    match goal with
    | Hb : negb _ = true |- _ =>
        apply negb_true_iff, String.eqb_neq in Hb
    end.
    split_and!; [done..|lia|lia|done|done]. }
  split.
  - rewrite <- list_fmap_compose.
    rewrite (list_fmap_ext _ fst (group_by _ samples)).
    + apply group_by_keys.
    + by intros i [[? ?] ?] _.
  - intros row ([[vt sensor] g] & -> & Hg)%list_elem_of_fmap.
    pose proof (group_by_nonempty _ _ _ _ Hg) as Hne.
    assert (Hmem : ∀ s, s ∈ g →
      s.1 ∈ db_readings db ∧ fleet_where la last s.1 = true ∧
      r_value_type s.1 = vt ∧ r_sensor s.1 = sensor).
    { intros s Hs. destruct (group_by_member _ _ _ _ s Hg Hs) as [Hin Hk].
      destruct (Hsample s Hin). by injection Hk as <- <-. }
    destruct g as [|s0 g]; [done|]. simpl.
    destruct (Hmem s0) as (Hin0 & Hw0 & <- & <-); [left|].
    destruct (Hwhere _ Hw0) as (Hnode & Hloc & Hts & Hvt & Hnum).
    split_and!; [done| |by exists s0.1].
    assert (Hall : Forall (λ y, last - minutes 5 ≤ y ≤ last)%Z
                     ((λ s : Reading * F, r_timestamp s.1) <$> g)).
    { apply Forall_fmap, Forall_forall. intros s Hs. simpl.
      destruct (Hmem s) as (_ & Hw & _); [by right|].
      by destruct (Hwhere _ Hw) as (_ & _ & ? & _). }
    pose proof (fold_left_min_bounds _ _ _ _ Hts Hall) as H1.
    pose proof (fold_left_max_bounds _ _ _ _ Hts Hall) as H2.
    pose proof (fold_left_min_le
      ((λ s : Reading * F, r_timestamp s.1) <$> g) (r_timestamp s0.1)) as H3.
    pose proof (fold_left_max_ge
      ((λ s : Reading * F, r_timestamp s.1) <$> g) (r_timestamp s0.1)) as H4.
    eexists _, _. split_and!; [done..| | |].
    + exact (proj1 H1).
    + exact (Z.le_trans _ _ _ H3 H4).
    + exact (proj2 H2).
Qed.

End FleetAnswer.

(** ** The cities of a shaped answer *)

Section Cities.
Context {V : Type}.

Lemma keys_dict_set {W} k (v : W) (d : pydict W) :
  fst <$> dict_set k v d
    = if bool_decide (k ∈ fst <$> d) then fst <$> d else (fst <$> d) ++ [k].
Proof.
  induction d as [|[k' v'] d IH]; [done|]. cbn [dict_set].
  destruct (String.eqb_spec k k') as [->|Hne]; rewrite !fmap_cons; cbn [fst].
  - rewrite bool_decide_eq_true_2 by left. done.
  - rewrite IH. case_bool_decide as Hin.
    + rewrite bool_decide_eq_true_2 by (by right). done.
    + rewrite bool_decide_eq_false_2; [done|]. by intros [?|?]%elem_of_cons.
Qed.

Lemma fold_distinct_NoDup (l seen : list string) :
  NoDup seen →
  NoDup (fold_left (λ seen x, if bool_decide (x ∈ seen) then seen
                              else seen ++ [x]) l seen).
Proof.
  revert seen. induction l as [|x l IH]; intros seen Hnd; simpl; [done|].
  apply IH. case_bool_decide as Hin; [done|].
  apply NoDup_app. split_and!; [done| |apply NoDup_singleton].
  intros y Hy ->%list_elem_of_singleton. done.
Qed.

Lemma fold_distinct_elem (l seen : list string) c :
  c ∈ fold_left (λ seen x, if bool_decide (x ∈ seen) then seen
                           else seen ++ [x]) l seen
  ↔ c ∈ seen ∨ c ∈ l.
Proof.
  revert seen. induction l as [|x l IH]; intros seen; simpl.
  - split; [by left|]. intros [?|?%elem_of_nil]; done.
  - rewrite IH. case_bool_decide as Hin.
    + rewrite elem_of_cons. split; [intros [?|?]; auto|].
      intros [?|[->|?]]; auto.
    + rewrite elem_of_app, list_elem_of_singleton, elem_of_cons. tauto.
Qed.

(** The keys of the dictionary the loop builds are the cities of the rows
    in the order in which they are first met. *)
Lemma shape_loop_cities from_date (rest : list (@data_stat V)) :
  ∀ results seen,
  shaped from_date seen results →
  (∀ ds, ds ∈ rest → ds_value_type ds ≠ "city_name") →
  ∃ results',
    shape_loop from_date results rest = Ok results' ∧
    shaped from_date (seen ++ rest) results' ∧
    fst <$> results'
      = fold_left (λ seen x, if bool_decide (x ∈ seen) then seen
                             else seen ++ [x])
          (ds_city_name <$> rest) (fst <$> results).
Proof.
  induction rest as [|ds rest IH]; intros results seen Hinv Hvt; simpl.
  - exists results. by rewrite app_nil_r.
  - assert (Hds : ds_value_type ds ≠ "city_name") by (apply Hvt; left).
    destruct (shape_step_result from_date results ds seen Hinv Hds)
      as (values & _ & Hstep).
    destruct (shape_step_shaped from_date results ds seen Hinv Hds)
      as (results1 & Hstep1 & Hinv1).
    rewrite Hstep1. simpl.
    destruct (IH results1 (seen ++ [ds]) Hinv1) as (results' & -> & Hinv' & Hk).
    { intros ? ?. apply Hvt. by right. }
    exists results'. rewrite <- app_assoc in Hinv'. split_and!; [done..|].
    rewrite Hk. f_equal. rewrite Hstep in Hstep1. injection Hstep1 as <-.
    apply keys_dict_set.
Qed.

Lemma named_cities (results : pydict (pydict (@entry V))) :
  (∀ k of_city, (k, of_city) ∈ results →
     dict_get "city_name" of_city = Some (EStr k)) →
  omap named_city (snd <$> results) = fst <$> results.
Proof.
  induction results as [|[k d] results IH]; intros Ha; [done|].
  simpl. unfold named_city at 1. rewrite (Ha k d) by left.
  f_equal. apply IH. intros ? ? ?. apply Ha. by right.
Qed.

(** Lines 66-100.  The answer holds one dictionary for each city of the
    rows, in the order in which the cities are first met, and [count] is
    the number of distinct cities, however many rows each has. *)
Theorem answer_lists_each_city_once
    (from_date next_link previous_link : option string)
    (data_stats : list (@data_stat V)) :
  (∀ ds, ds ∈ data_stats → ds_value_type ds ≠ "city_name") →
  ∃ p,
    get_paginated_response from_date next_link previous_link data_stats = Ok p ∧
    omap named_city (results p)
      = distinct_in_order (ds_city_name <$> data_stats) ∧
    length (results p) = count p ∧
    count p = length (distinct_in_order (ds_city_name <$> data_stats)) ∧
    NoDup (distinct_in_order (ds_city_name <$> data_stats)) ∧
    ∀ c, c ∈ distinct_in_order (ds_city_name <$> data_stats)
         ↔ ∃ ds, ds ∈ data_stats ∧ ds_city_name ds = c.
Proof.
  intros Hvt.
  destruct (shape_loop_cities from_date data_stats [] []
              (shaped_nil from_date) Hvt) as (res & Hloop & [Ha _] & Hkeys).
  unfold get_paginated_response. rewrite Hloop. simpl.
  eexists. split; [done|]. simpl. unfold distinct_in_order.
  change (fst <$> ([] : pydict (pydict (@entry V)))) with ([] : list string)
    in Hkeys.
  split_and!.
  - by rewrite named_cities.
  - by rewrite !length_fmap.
  - by rewrite <- Hkeys.
  - apply fold_distinct_NoDup. constructor.
  - intros c. rewrite fold_distinct_elem, list_elem_of_fmap. split.
    + intros [?%elem_of_nil|(ds & -> & ?)]; [done|eauto].
    + intros (ds & ? & <-). right. eauto.
Qed.

End Cities.

(** ** More on the dates of a request *)

Section DatesMore.

Lemma validate_date_not_ok s error :
  ¬ date_text (list_ascii_of_string s) → validate_date s error ≠ Ok ().
Proof. intros Hbad Hok. by apply validate_date_ok_iff in Hok. Qed.


(** Lines 49-53 and 41-42.  A date that passed [validate_date] parses:
    [beginning_of_day] returns midnight of a day between year 1 and year
    9999 and cannot raise. *)
Theorem validated_date_parses (date_text : string) (error : string * string) :
  validate_date date_text error = Ok () →
  ∃ t, beginning_of_day date_text = Ok t ∧
       (t mod DAY = 0)%Z ∧ (1 ≤ toordinal t ≤ MAXORDINAL)%Z.
Proof.
  intros [t Ht]%validate_date_ok. exists t. split; [done|].
  destruct (strptime_midnight _ _ Ht) as (y & m & d & Hc & ->).
  pose proof (check_date_fields_ordinal _ _ _ Hc) as Hlo.
  assert (Hhi : (ymd2ord y m d ≤ MAXORDINAL)%Z).
  { destruct (decide ((y, m, d) = (9999, 12, 31)%Z)) as [[= -> -> ->]|Hne].
    - done.
    - pose proof (ymd2ord_below_max _ _ _ Hc Hne). lia. }
  rewrite datetime_midnight. unfold toordinal, DAY in *.
  Z.div_mod_to_equations. lia.
Qed.

End DatesMore.

Section ReversedWindow.
Context {F : Type} `{FloatOps F}.
Variable date_trunc : string → Z → option Z.

(** Lines 146-148 and 175-176.  A request whose [from] day is after the
    day that follows its [to] day is not refused: its window is empty and
    the answer has no rows, whatever the table holds. *)
Theorem reversed_window_has_no_rows (rq : request) (w : world)
    (p : sql_params) :
  prepare rq (now w) = Ok p →
  (to_date p < from_date p)%Z →
  filter_value_types p ≠ [] →
  (get_queryset date_trunc rq w).1 = Ok [].
Proof.
  intros Hp Hrev Hne. unfold get_queryset. rewrite Hp. simpl.
  unfold stat_query. rewrite bool_decide_eq_false_2 by done.
  assert (Hnone : filter (λ r, stat_where p r = true) (readings w) = []).
  { destruct (filter _ (readings w)) as [|r l] eqn:E; [done|].
    assert (Hin : r ∈ filter (λ r, stat_where p r = true) (readings w))
      by (rewrite E; left).
    apply list_elem_of_filter in Hin as [Hw%stat_where_window _]. lia. }
  by rewrite Hnone.
Qed.

End ReversedWindow.

(** ** The further properties on the example data *)

(** The rolling window at noon of June 1st, 2023. *)
Lemma rolling_window_witness :
  truthy None = false ∧
  (1 < toordinal example_now ≤ MAXORDINAL)%Z ∧
  resolve None None example_now
    = Ok ((example_now - hours 24)%Z, example_now).
Proof.
  assert (Hnow : (1 < toordinal example_now ≤ MAXORDINAL)%Z)
    by (split; [reflexivity|vm_compute; discriminate]).
  split; [reflexivity|]. split; [exact Hnow|].
  exact (rolling_window None None example_now eq_refl eq_refl Hnow).
Defined.

(** The window of a request that gives only [from]. *)
Lemma window_from_only_witness :
  strptime "2023-01-01" = Ok (datetime 2023 1 1 0 0 0) ∧
  resolve (Some "2023-01-01") None example_now
    = Ok (datetime 2023 1 1 0 0 0, datetime 2023 6 1 0 0 0).
Proof.
  split; [reflexivity|].
  exact (proj1 (window_from_only "2023-01-01" None (datetime 2023 1 1 0 0 0)
                  example_now eq_refl eq_refl)).
Defined.

(** The end of the last day of 2023 is the first midnight of 2024. *)
Lemma end_of_day_is_next_midnight_witness :
  check_date_fields 2023 12 31 = true ∧
  strptime "2023-12-31" = Ok (datetime 2023 12 31 0 0 0) ∧
  end_of_day "2023-12-31" = Ok (datetime 2024 1 1 0 0 0) ∧
  check_date_fields 2024 1 1 = true.
Proof.
  split; [reflexivity|]. split; [reflexivity|].
  exact (end_of_day_is_next_midnight "2023-12-31" 2023 12 31 eq_refl eq_refl
           ltac:(discriminate)).
Defined.

(** The bucket of January 4th respects the filters of [january_request]. *)
Lemma buckets_respect_the_filters_witness :
  prepare january_request (now example_world) = Ok january_params ∧
  (get_queryset utc_date_trunc january_request example_world).1
    = Ok [january_second_bucket; january_fourth_bucket] ∧
  bucket_value_type january_fourth_bucket
    ∈ filter_value_types january_params ∧
  (city_names january_params ≠ [] →
     city_name january_fourth_bucket ∈ city_names january_params) ∧
  ∃ s e, start_datetime january_fourth_bucket = Some s ∧
         end_datetime january_fourth_bucket = Some e ∧
         (from_date january_params ≤ s)%Z ∧ (s ≤ e)%Z ∧
         (e ≤ to_date january_params)%Z.
Proof.
  assert (E : (get_queryset utc_date_trunc january_request example_world).1
              = Ok [january_second_bucket; january_fourth_bucket])
    by (vm_compute; reflexivity).
  split; [reflexivity|]. split; [exact E|].
  exact (buckets_respect_the_filters utc_date_trunc january_request
           example_world january_params _ january_fourth_bucket eq_refl E
           (ltac:(by repeat constructor))).
Defined.

(** The two buckets of the example share out its three valid readings. *)
Lemma buckets_share_out_the_readings_witness :
  stat_query utc_date_trunc january_params example_readings
    = Ok [january_second_bucket; january_fourth_bucket] ∧
  NoDup ((λ b, (time_bucket b, bucket_value_type b, city_name b)) <$>
           [january_second_bucket; january_fourth_bucket]) ∧
  sum_list_with sample_count [january_second_bucket; january_fourth_bucket]
    = length (filter (λ r, stat_where january_params r = true)
                example_readings).
Proof.
  assert (E : stat_query utc_date_trunc january_params example_readings
              = Ok [january_second_bucket; january_fourth_bucket])
    by (vm_compute; reflexivity).
  split; [exact E|].
  exact (buckets_share_out_the_readings utc_date_trunc january_params
           example_readings _ E).
Defined.

(** A request for [pm10] fails at the database. *)
Lemma unknown_value_types_fail_the_query_witness :
  prepare pm10_request (now example_world) = Ok pm10_params ∧
  truthy (value_type pm10_request) = true ∧
  (get_queryset utc_date_trunc pm10_request example_world).1
    = Raise ProgrammingError.
Proof.
  split; [reflexivity|]. split; [reflexivity|].
  refine (proj1 (proj2 (unknown_value_types_fail_the_query utc_date_trunc
            pm10_request example_world pm10_params eq_refl eq_refl _))).
  intros allowed t Hst Hin Hmem.
  vm_compute in Hst. injection Hst as <-.
  change (t ∈ ["PM10"]) in Hin. apply list_elem_of_singleton in Hin as ->.
  change ("PM10" ∈ ["P1"; "P2"; "HUMIDITY"; "TEMPERATURE"]) in Hmem.
  repeat (apply elem_of_cons in Hmem as [Hmem|Hmem]; [discriminate|]).
  by apply elem_of_nil in Hmem.
Defined.

(** A request from January 5th to January 1st has no rows. *)
Lemma reversed_window_has_no_rows_witness :
  prepare reversed_request (now example_world) = Ok reversed_params ∧
  (to_date reversed_params < from_date reversed_params)%Z ∧
  filter_value_types reversed_params ≠ [] ∧
  (get_queryset utc_date_trunc reversed_request example_world).1 = Ok [].
Proof.
  split; [reflexivity|]. split; [reflexivity|].
  assert (Hne : filter_value_types reversed_params ≠ []) by discriminate.
  split; [exact Hne|].
  exact (reversed_window_has_no_rows utc_date_trunc reversed_request
           example_world reversed_params eq_refl eq_refl Hne).
Defined.

(** A validated date parses to its midnight. *)
Lemma validated_date_parses_witness :
  validate_date "2023-01-03" ("to", "Must be a date in the format Y-m-d.")
    = Ok () ∧
  ∃ t, beginning_of_day "2023-01-03" = Ok t ∧
       (t mod DAY = 0)%Z ∧ (1 ≤ toordinal t ≤ MAXORDINAL)%Z.
Proof.
  split; [reflexivity|].
  exact (validated_date_parses "2023-01-03"
           ("to", "Must be a date in the format Y-m-d.") eq_refl).
Defined.

(** The answer for the two example rows names Nairobi once. *)
Lemma answer_lists_each_city_once_witness :
  (∀ ds, ds ∈ [first_row; second_row] → ds_value_type ds ≠ "city_name") ∧
  distinct_in_order (ds_city_name <$> [first_row; second_row]) = ["Nairobi"] ∧
  ∃ p,
    get_paginated_response None None None [first_row; second_row] = Ok p ∧
    omap named_city (results p) = ["Nairobi"] ∧
    count p = 1%nat.
Proof.
  assert (H : ∀ ds, ds ∈ [first_row; second_row] →
                    ds_value_type ds ≠ "city_name").
  { intros ds [->|[->|[]%elem_of_nil]%elem_of_cons]%elem_of_cons; discriminate. }
  split; [exact H|]. split; [reflexivity|].
  destruct (answer_lists_each_city_once None None None
              [first_row; second_row] H) as (p & Hp & Hnames & _ & Hcount & _).
  exists p. split; [exact Hp|]. split; [exact Hnames|exact Hcount].
Defined.

(** The answer for the reporting fleet. *)
Lemma fleet_answers_each_snapshot_witness :
  nodes_view_list plain_slug reporting_fleet = Ok reporting_answer ∧
  Forall2 (reports plain_slug reporting_fleet)
    (db_last_active reporting_fleet) reporting_answer.
Proof.
  assert (E : nodes_view_list plain_slug reporting_fleet = Ok reporting_answer)
    by (vm_compute; reflexivity).
  split; [exact E|].
  exact (fleet_answers_each_snapshot plain_slug reporting_fleet _ E).
Defined.

(** The trailing statistics of the reporting snapshot. *)
Lemma fleet_stats_rows_witness :
  fleet_stats reporting_fleet reporting_snapshot (datetime 2023 1 2 11 30 0)
    = Ok reporting_stats ∧
  NoDup ((λ row, (ns_value_type row, ns_sensor_id row)) <$> reporting_stats).
Proof.
  assert (E : fleet_stats reporting_fleet reporting_snapshot
                (datetime 2023 1 2 11 30 0) = Ok reporting_stats)
    by (vm_compute; reflexivity).
  split; [exact E|].
  exact (proj1 (fleet_stats_rows reporting_fleet reporting_snapshot _ _ E)).
Defined.

(** The node of the reporting answer has a sensor. *)
Lemma answered_nodes_have_sensors_witness :
  nodes_view_list plain_slug reporting_fleet = Ok reporting_answer ∧
  Forall (has_sensors reporting_fleet) reporting_answer.
Proof.
  assert (E : nodes_view_list plain_slug reporting_fleet = Ok reporting_answer)
    by (vm_compute; reflexivity).
  split; [exact E|].
  apply Forall_forall. intros st Hst.
  exact (answered_nodes_have_sensors plain_slug reporting_fleet
           reporting_answer st E Hst).
Defined.

(** The snapshot of the node without sensors fails the example fleet. *)
Lemma snapshot_without_sensors_raises_witness :
  snapshot_of node_without_sensors ∈ db_last_active example_fleet ∧
  ∃ e, nodes_view_list (F := Q) plain_slug example_fleet = Raise e.
Proof.
  assert (Hin : snapshot_of node_without_sensors ∈ db_last_active example_fleet)
    by left.
  split; [exact Hin|].
  refine (snapshot_without_sensors_raises plain_slug example_fleet
            (snapshot_of node_without_sensors) Hin _).
  intros n [->|[->|[]%elem_of_nil]%elem_of_cons]%elem_of_cons Hid;
    [reflexivity|discriminate].
Defined.

(** ** The failures of the fleet status view *)

Section FleetOutcomes.
Context {F : Type} `{FloatOps F}.
Variable slugify : string → string.







End FleetOutcomes.

